(** * kvz_client.py: the Python client of the kvz key/value store

    A shallow embedding of [KVZClient.put] and [KVZClient.get]
    (src/kvz_client.py) together with the Python and pyzmq primitives the
    two methods call, followed by the properties of the wire protocol
    that the client implements. *)

From Stdlib Require Import ZArith Lia List Bool.
From Stdlib Require Import Strings.Byte Strings.Ascii Strings.String.
From Stdlib Require Import Numbers.DecimalString.
From stdpp Require Import base option list countable gmap.

Local Open Scope Z_scope.

(** ** Python values *)

Module Py.

(** [bytes]: an immutable sequence of octets. *)
Definition bytes := list byte.

(** [str]: a sequence of Unicode code points ([0 .. 0x10FFFF]). *)
Definition str := list Z.

(** A text: a [str] without surrogate code points, which is what UTF-8
    can encode. *)
Definition is_text (s : str) : Prop :=
  Forall (fun c => 0 <= c <= 0x10FFFF /\ ~ 0xD800 <= c <= 0xDFFF) s.

(** The value of one octet, as indexing a [bytes] object gives it. *)
Definition ord (b : byte) : Z := Z.of_N (Byte.to_N b).

(** The octet of a number, taken modulo 256. *)
Definition octet (z : Z) : byte :=
  match Byte.of_N (Z.to_N (z mod 256)) with
  | Some b => b
  | None => x00
  end.

(** A [bytes] literal [b"..."] and a [str] literal ["..."] (ASCII only). *)
Definition b (s : string) : bytes := list_byte_of_string s.
Definition lit (s : string) : str :=
  List.map (fun a => Z.of_N (N_of_ascii a)) (list_ascii_of_string s).

#[global] Instance byte_eq_dec : EqDecision byte := Byte.byte_eq_dec.
#[global] Instance byte_countable : Countable byte :=
  inj_countable Byte.to_N Byte.of_N Byte.of_to_N.

(** [==] on [bytes] and on [str]. *)
Definition bytes_eqb (x y : bytes) : bool := bool_decide (x = y).
Definition str_eqb (x y : str) : bool := bool_decide (x = y).

(** *** Exceptions and results

    The client raises [RuntimeError] with a message; [struct.error],
    [UnicodeEncodeError] and [zmq.ZMQError] come from the library calls
    (their message texts are not modelled). *)
Inductive exn : Type :=
  | RuntimeError (msg : str)
  | struct_error
  | UnicodeEncodeError
  | ZMQError.

Inductive result (A : Type) : Type :=
  | Return (a : A)
  | Raise (e : exn).
Arguments Return {A} a.
Arguments Raise {A} e.

(** *** struct.pack(">Q", v) and struct.unpack(">Q", buf)[0] *)

Definition be_shifts : list Z := [56; 48; 40; 32; 24; 16; 8; 0].

Definition pack_be64 (v : Z) : bytes :=
  List.map (fun k => octet (Z.land (Z.shiftr v k) 255)) be_shifts.

Definition struct_pack_Q (v : Z) : result bytes :=
  if (0 <=? v) && (v <? 2 ^ 64) then Return (pack_be64 v)
  else Raise struct_error.

Definition be_value (buf : bytes) : Z :=
  fold_left (fun acc x => acc * 256 + ord x) buf 0.

Definition struct_unpack_Q (buf : bytes) : result Z :=
  if (length buf =? 8)%nat then Return (be_value buf) else Raise struct_error.

(** *** str.encode("utf-8")

    Strict error handling: a surrogate code point raises
    [UnicodeEncodeError]. *)

Definition utf8_encode_char (ch : Z) : option bytes :=
  if ch <? 0 then None
  else if ch <? 0x80 then Some [octet ch]
  else if ch <? 0x800 then
    Some [octet (Z.lor 0xC0 (Z.shiftr ch 6));
          octet (Z.lor 0x80 (Z.land ch 0x3F))]
  else if (0xD800 <=? ch) && (ch <=? 0xDFFF) then None
  else if ch <? 0x10000 then
    Some [octet (Z.lor 0xE0 (Z.shiftr ch 12));
          octet (Z.lor 0x80 (Z.land (Z.shiftr ch 6) 0x3F));
          octet (Z.lor 0x80 (Z.land ch 0x3F))]
  else if ch <=? 0x10FFFF then
    Some [octet (Z.lor 0xF0 (Z.shiftr ch 18));
          octet (Z.lor 0x80 (Z.land (Z.shiftr ch 12) 0x3F));
          octet (Z.lor 0x80 (Z.land (Z.shiftr ch 6) 0x3F));
          octet (Z.lor 0x80 (Z.land ch 0x3F))]
  else None.

Fixpoint str_encode_utf8 (s : str) : result bytes :=
  match s with
  | [] => Return []
  | ch :: s' =>
    match utf8_encode_char ch with
    | None => Raise UnicodeEncodeError
    | Some bs =>
      match str_encode_utf8 s' with
      | Return rest => Return (bs ++ rest)
      | Raise e => Raise e
      end
    end
  end.

(** *** bytes.decode("utf-8", errors="ignore")

    The decoder of CPython: a well-formed sequence yields its code point;
    an ill-formed one is reported to the error handler as a range of
    octets (an invalid start byte: one octet; an invalid continuation
    byte: the octets before it; a sequence cut off by the end of the data:
    all that is left), and the [ignore] handler resumes after that range
    without producing anything. *)

Definition is_continuation (c : Z) : bool := (0x80 <=? c) && (c <? 0xC0).

Fixpoint bytes_decode_utf8_ignore (s : bytes) : str :=
  match s with
  | [] => []
  | b0 :: s1 =>
    let ch := ord b0 in
    if ch <? 0x80 then ch :: bytes_decode_utf8_ignore s1
    else if ch <? 0xC2 then bytes_decode_utf8_ignore s1
    else if ch <? 0xE0 then
      match s1 with
      | [] => []
      | b1 :: s2 =>
        let ch2 := ord b1 in
        if negb (is_continuation ch2) then bytes_decode_utf8_ignore s1
        else (ch * 64 + ch2 - (0xC0 * 64 + 0x80)) :: bytes_decode_utf8_ignore s2
      end
    else if ch <? 0xF0 then
      match s1 with
      | [] => []
      | b1 :: s2 =>
        let ch2 := ord b1 in
        if negb (is_continuation ch2)
           || (if ch2 <? 0xA0 then ch =? 0xE0 else ch =? 0xED)
        then bytes_decode_utf8_ignore s1
        else
          match s2 with
          | [] => []
          | b2 :: s3 =>
            let ch3 := ord b2 in
            if negb (is_continuation ch3) then bytes_decode_utf8_ignore s2
            else (ch * 4096 + ch2 * 64 + ch3 - (0xE0 * 4096 + 0x80 * 64 + 0x80))
                   :: bytes_decode_utf8_ignore s3
          end
      end
    else if ch <? 0xF5 then
      match s1 with
      | [] => []
      | b1 :: s2 =>
        let ch2 := ord b1 in
        if negb (is_continuation ch2)
           || (if ch2 <? 0x90 then ch =? 0xF0 else ch =? 0xF4)
        then bytes_decode_utf8_ignore s1
        else
          match s2 with
          | [] => []
          | b2 :: s3 =>
            let ch3 := ord b2 in
            if negb (is_continuation ch3) then bytes_decode_utf8_ignore s2
            else
              match s3 with
              | [] => []
              | b3 :: s4 =>
                let ch4 := ord b3 in
                if negb (is_continuation ch4) then bytes_decode_utf8_ignore s3
                else (ch * 262144 + ch2 * 4096 + ch3 * 64 + ch4
                      - (0xF0 * 262144 + 0x80 * 4096 + 0x80 * 64 + 0x80))
                       :: bytes_decode_utf8_ignore s4
              end
          end
      end
    else bytes_decode_utf8_ignore s1
  end.

(** *** repr of [bytes] and of a list of [bytes] (what an f-string prints) *)

Definition hexdigit (d : Z) : Z :=
  if d <? 10 then 48 + d else 87 + d.

Definition bytes_repr_quote (s : bytes) : Z :=
  if existsb (fun x => ord x =? 39) s && negb (existsb (fun x => ord x =? 34) s)
  then 34 else 39.

Definition bytes_repr_char (quote : Z) (x : byte) : str :=
  let c := ord x in
  if (c =? quote) || (c =? 92) then [92; c]
  else if c =? 9 then [92; 116]
  else if c =? 10 then [92; 110]
  else if c =? 13 then [92; 114]
  else if (c <? 32) || (0x7F <=? c) then
    [92; 120; hexdigit (Z.shiftr (Z.land c 0xF0) 4); hexdigit (Z.land c 0xF)]
  else [c].

Definition bytes_repr (s : bytes) : str :=
  let quote := bytes_repr_quote s in
  [98; quote] ++ concat (List.map (bytes_repr_char quote) s) ++ [quote].

Fixpoint join (sep : str) (l : list str) : str :=
  match l with
  | [] => []
  | [x] => x
  | x :: l' => x ++ sep ++ join sep l'
  end.

Definition list_repr (l : list bytes) : str :=
  lit "[" ++ join (lit ", ") (List.map bytes_repr l) ++ lit "]".

(** *** str of an [int]: its decimal digits, what an f-string prints *)

Definition int_str (n : Z) : str := lit (NilZero.string_of_int (Z.to_int n)).

End Py.

Import Py.

(** ** pyzmq: a REQ socket

    A REQ socket alternates strictly between sending one multi-frame
    request and receiving its reply; an operation out of turn raises
    [ZMQError].  The peer is a transition function on its own state that
    answers every request with a list of frames.  The socket records the
    requests that went out.

    The model covers the calls whose request is answered: a receive that
    itself fails (a timeout, an interrupt, a terminated context) would
    leave the socket awaiting its reply, and is not one of the runs of
    [recv_multipart] below.  What a call does on a socket left that way
    is modelled: the send out of turn raises. *)

Module Zmq.
Section Socket.
Context {Server : Type}.
Variable serve : Server -> list bytes -> Server * list bytes.

Record socket : Type := Socket {
  peer : Server;
  awaiting : option (list bytes);
  sent : list (list bytes)
}.

(** What [KVZClient.__init__] leaves in [self.sock]: a socket connected
    to the peer, with nothing sent yet. *)
Definition connect (p : Server) : socket :=
  {| peer := p; awaiting := None; sent := [] |}.

(** Computations on [self.sock] that may raise. *)
Definition M (A : Type) : Type := socket -> result A * socket.

Definition bind {A B} (m : M A) (k : A -> M B) : M B :=
  fun s =>
    match m s with
    | (Return a, s') => k a s'
    | (Raise e, s') => (Raise e, s')
    end.
Definition lift {A} (r : result A) : M A := fun s => (r, s).

Definition send_multipart (frames : list bytes) : M unit :=
  fun s =>
    match awaiting s with
    | Some _ => (Raise ZMQError, s)
    | None =>
      let '(p', rep) := serve (peer s) frames in
      (Return tt,
       {| peer := p'; awaiting := Some rep; sent := sent s ++ [frames] |})
    end.

Definition recv_multipart : M (list bytes) :=
  fun s =>
    match awaiting s with
    | None => (Raise ZMQError, s)
    | Some rep =>
      (Return rep, {| peer := peer s; awaiting := None; sent := sent s |})
    end.
End Socket.
End Zmq.

Import Zmq.

Declare Scope session_scope.
Delimit Scope session_scope with session.
Notation "x <- m ;; k" := (bind m (fun x => k))
  (at level 100, m at next level, right associativity) : session_scope.

(** ** class KVZClient *)

Module KVZClient.

(** Lines 23-31: what [put] makes of the reply frames. *)
Definition put_reply (rep : list bytes) : result str :=
  if (length rep =? 0)%nat then Raise (RuntimeError (lit "empty reply"))
  else
    let code := bytes_decode_utf8_ignore (nth 0 rep []) in
    if str_eqb code (lit "OK") || str_eqb code (lit "STALE") then Return code
    else if str_eqb code (lit "ERR") then
      let msg := if (1 <? length rep)%nat
                 then bytes_decode_utf8_ignore (nth 1 rep [])
                 else lit "" in
      Raise (RuntimeError (lit "PUT ERR: " ++ msg))
    else Raise (RuntimeError (lit "Unexpected reply: " ++ list_repr rep)).

(** Lines 40-54: what [get] makes of the reply frames. *)
Definition get_reply (rep : list bytes) : result (option (Z * bytes)) :=
  if (length rep =? 0)%nat then Raise (RuntimeError (lit "empty reply"))
  else
    let code := bytes_decode_utf8_ignore (nth 0 rep []) in
    if str_eqb code (lit "MISS") then Return None
    else if str_eqb code (lit "OK") then
      if negb (length rep =? 3)%nat
      then Raise (RuntimeError (lit "malformed OK reply"))
      else
        match struct_unpack_Q (nth 1 rep []) with
        | Raise e => Raise e
        | Return ts => let data := nth 2 rep [] in Return (Some (ts, data))
        end
    else if str_eqb code (lit "ERR") then
      let msg := if (1 <? length rep)%nat
                 then bytes_decode_utf8_ignore (nth 1 rep [])
                 else lit "" in
      Raise (RuntimeError (lit "GET ERR: " ++ msg))
    else Raise (RuntimeError (lit "Unexpected reply: " ++ list_repr rep)).

Section Session.
Context {Server : Type}.
Variable serve : Server -> list bytes -> Server * list bytes.

Local Open Scope session_scope.

Definition put (key : str) (ts : Z) (data : bytes) : M str :=
  ts_bytes <- lift (struct_pack_Q ts) ;;
  key_bytes <- lift (str_encode_utf8 key) ;;
  _ <- send_multipart serve [b "PUT"; key_bytes; ts_bytes; data] ;;
  rep <- recv_multipart ;;
  lift (put_reply rep).

Definition get (key : str) : M (option (Z * bytes)) :=
  key_bytes <- lift (str_encode_utf8 key) ;;
  _ <- send_multipart serve [b "GET"; key_bytes] ;;
  rep <- recv_multipart ;;
  lift (get_reply rep).

(** Lines 57-70, the demo under [if __name__ == "__main__"]: a client is
    connected, one record is put and fetched again, and the outcomes are
    printed.  [ts] is the number that [int(time.time() * 1000)] gave; the
    lines printed so far are kept when a call raises. *)
Definition main (ts : Z) (p : Server) : list str * result unit * socket :=
  let client := connect p in
  match put (lit "greeting") ts (b "hello from python") client with
  | (Raise e, s1) => ([], Raise e, s1)
  | (Return r, s1) =>
    let out := [lit "PUT: " ++ r] in
    match get (lit "greeting") s1 with
    | (Raise e, s2) => (out, Raise e, s2)
    | (Return None, s2) => (out ++ [lit "MISS"], Return tt, s2)
    | (Return (Some (ts', data)), s2) =>
      (out ++ [lit "GET: ts=" ++ int_str ts' ++ lit ", data="
               ++ bytes_repr data],
       Return tt, s2)
    end
  end.
End Session.

End KVZClient.

Import KVZClient.

(** ** The store

    The server side of the protocol; the client only sees its replies. *)

Module Store.

(** The records a store holds, by key frame. *)
Abbreviation records := (gmap bytes (Z * bytes)).

(** Modelled from the spec: the store that answers the client (the kvz
    server, of which the repository's source holds only this client).
    Section 6 of the spec gives its contract:
    a PUT for key K with timestamp T is persisted and answered [OK] when
    no record exists for K or the existing record's timestamp is strictly
    less than T, and otherwise leaves the state unchanged and is answered
    [STALE]; a GET is answered [OK] with the current timestamp and payload
    when a record exists, else [MISS].  [view] reads the records out of
    the server's state. *)
Record conforms {Server : Type}
    (serve : Server -> list bytes -> Server * list bytes)
    (view : Server -> records) : Prop := {
  put_newer : forall st K T P,
    0 <= T < 2 ^ 64 ->
    match view st !! K with Some (t0, _) => t0 < T | None => True end ->
    exists st',
      serve st [b "PUT"; K; pack_be64 T; P] = (st', [b "OK"])
      /\ view st' = <[K := (T, P)]> (view st);
  put_not_newer : forall st K T P t0 p0,
    0 <= T < 2 ^ 64 ->
    view st !! K = Some (t0, p0) -> T <= t0 ->
    exists st',
      serve st [b "PUT"; K; pack_be64 T; P] = (st', [b "STALE"])
      /\ view st' = view st;
  get_found : forall st K t p,
    view st !! K = Some (t, p) ->
    exists st',
      serve st [b "GET"; K] = (st', [b "OK"; pack_be64 t; p])
      /\ view st' = view st;
  get_missing : forall st K,
    view st !! K = None ->
    exists st',
      serve st [b "GET"; K] = (st', [b "MISS"])
      /\ view st' = view st
}.

(** Modelled from the spec: a store that follows the contract of section 6
    literally, with the records themselves as its state; a request it
    cannot read is a server-side failure, answered [ERR]. *)
Definition reference (st : records) (req : list bytes) : records * list bytes :=
  match req with
  | [tag; K; tsb; P] =>
    if bytes_eqb tag (b "PUT") then
      match struct_unpack_Q tsb with
      | Return T =>
        match st !! K with
        | Some (t0, _) =>
          if t0 <? T then (<[K := (T, P)]> st, [b "OK"])
          else (st, [b "STALE"])
        | None => (<[K := (T, P)]> st, [b "OK"])
        end
      | Raise _ => (st, [b "ERR"; b "bad timestamp"])
      end
    else (st, [b "ERR"; b "bad request"])
  | [tag; K] =>
    if bytes_eqb tag (b "GET") then
      match st !! K with
      | Some (t, p) => (st, [b "OK"; pack_be64 t; p])
      | None => (st, [b "MISS"])
      end
    else (st, [b "ERR"; b "bad request"])
  | _ => (st, [b "ERR"; b "bad request"])
  end.

(** A peer that answers every request with the same frames. *)
Definition canned (rep : list bytes) (st : unit) (req : list bytes)
  : unit * list bytes := (st, rep).

End Store.

Import Store.

(** ** Vocabulary of the properties *)

(** The session between two calls: nothing is awaited. *)
Definition idle {Server : Type} (s : @socket Server) : Prop :=
  awaiting s = None.

(** The message of an [ERR] reply: the second frame when there is one. *)
Definition err_message (rest : list bytes) : str :=
  match rest with
  | [] => lit ""
  | m :: _ => bytes_decode_utf8_ignore m
  end.

(** The four forms of a UTF-8 sequence, by lead octet and payload bits. *)
Inductive utf8_form : Z -> bytes -> Prop :=
  | utf8_form_1 c :
      0 <= c < 0x80 -> utf8_form c [octet c]
  | utf8_form_2 q r :
      2 <= q < 32 -> 0 <= r < 64 ->
      utf8_form (64 * q + r) [octet (0xC0 + q); octet (0x80 + r)]
  | utf8_form_3 p q r :
      0 <= p < 16 -> 0 <= q < 64 -> 0 <= r < 64 ->
      (p = 0 -> 32 <= q) -> (p = 13 -> q < 32) ->
      utf8_form (4096 * p + 64 * q + r)
        [octet (0xE0 + p); octet (0x80 + q); octet (0x80 + r)]
  | utf8_form_4 o p q r :
      0 <= o < 5 -> 0 <= p < 64 -> 0 <= q < 64 -> 0 <= r < 64 ->
      (o = 0 -> 16 <= p) -> (o = 4 -> p < 16) ->
      utf8_form (262144 * o + 4096 * p + 64 * q + r)
        [octet (0xF0 + o); octet (0x80 + p); octet (0x80 + q);
         octet (0x80 + r)].

(** [reencodes t fr]: the string [t] is made of octets of the frame
    [fr], in their order: encoding it gives a subsequence of the frame. *)
Definition reencodes (t : str) (fr : bytes) : Prop :=
  exists kb, str_encode_utf8 t = Return kb /\ sublist kb fr.

(** An octet that cannot start a UTF-8 sequence. *)
Definition invalid_start (x : byte) : Prop :=
  0x80 <= ord x < 0xC2 \/ 0xF5 <= ord x.

(** A payload that holds each of the 256 octets once. *)
Definition all_octets : bytes :=
  List.map (fun n => octet (Z.of_nat n)) (seq 0 256).

(** The requests of the protocol, as frames: a PUT of four frames with a
    timestamp frame of eight octets, or a GET of two frames, the key frame
    being the UTF-8 of a text. *)
Definition is_request (req : list bytes) : Prop :=
  (exists key kb ts data,
     str_encode_utf8 key = Return kb /\ 0 <= ts < 2 ^ 64
     /\ req = [b "PUT"; kb; pack_be64 ts; data])
  \/ (exists key kb,
        str_encode_utf8 key = Return kb /\ req = [b "GET"; kb]).

(** The sessions a client can be in while every request is answered: the
    one [KVZClient.__init__] makes and those that calls of [put] and [get]
    lead to, whatever they return or raise. *)
Inductive reachable {Server : Type}
    (serve : Server -> list bytes -> Server * list bytes)
    : @socket Server -> Prop :=
  | reachable_connect p : reachable serve (connect p)
  | reachable_put s key ts data :
      reachable serve s -> reachable serve (snd (put serve key ts data s))
  | reachable_get s key :
      reachable serve s -> reachable serve (snd (get serve key s)).

(** The line the demo prints for a record. *)
Definition get_line (ts : Z) (data : bytes) : str :=
  lit "GET: ts=" ++ int_str ts ++ lit ", data=" ++ bytes_repr data.

(** Printable ASCII. *)
Definition printable (c : Z) : Prop := 32 <= c <= 126.

(** Settle the comparisons of numbers in the goal, case by case. *)
Ltac decide_Z :=
  repeat match goal with
  | |- context [(?x <? ?y)%Z] => destruct (Z.ltb_spec x y); try lia
  | |- context [(?x <=? ?y)%Z] => destruct (Z.leb_spec x y); try lia
  | |- context [(?x =? ?y)%Z] => destruct (Z.eqb_spec x y); try lia
  end.


(** * Properties *)

(** ** Octets and numbers *)

Lemma ord_range (x : byte) : 0 <= ord x < 256.
Proof.
  unfold ord. pose proof (Byte.to_N_bounded x). lia.
Qed.

Lemma octet_ord (x : byte) : octet (ord x) = x.
Proof.
  unfold octet. rewrite Z.mod_small by apply ord_range.
  unfold ord. rewrite N2Z.id, Byte.of_to_N. reflexivity.
Qed.

Lemma ord_octet (z : Z) : 0 <= z < 256 -> ord (octet z) = z.
Proof.
  intros Hz. unfold octet. rewrite Z.mod_small by assumption.
  destruct (Byte.of_N (Z.to_N z)) as [x|] eqn:E.
  - apply Byte.to_of_N in E. unfold ord. rewrite E. lia.
  - apply Byte.of_N_None_iff in E. lia.
Qed.

Lemma octet_of_ord (z : Z) (x : byte) : z = ord x -> octet z = x.
Proof. intros ->. apply octet_ord. Qed.

(** ** struct.pack and struct.unpack *)

Lemma shiftr_land_255 (v k : Z) :
  0 <= k -> Z.land (Z.shiftr v k) 255 = (v / 2 ^ k) mod 256.
Proof.
  intros Hk. rewrite Z.shiftr_div_pow2 by assumption.
  change 255 with (Z.ones 8). rewrite Z.land_ones by lia. reflexivity.
Qed.

Lemma pack_be64_length (v : Z) : length (pack_be64 v) = 8%nat.
Proof. reflexivity. Qed.

Lemma be_value_pack_be64 (v : Z) :
  0 <= v < 2 ^ 64 -> be_value (pack_be64 v) = v.
Proof.
  intros Hv. unfold pack_be64, be_shifts, be_value. cbn [List.map fold_left].
  rewrite !shiftr_land_255 by lia.
  rewrite !ord_octet by (apply Z.mod_pos_bound; lia).
  change (2 ^ 0) with 1. rewrite Z.div_1_r.
  change (2 ^ 8) with 256. change (2 ^ 64) with 18446744073709551616 in Hv.
  change (2 ^ 16) with 65536. change (2 ^ 24) with 16777216.
  change (2 ^ 32) with 4294967296. change (2 ^ 40) with 1099511627776.
  change (2 ^ 48) with 281474976710656.
  change (2 ^ 56) with 72057594037927936.
  Z.div_mod_to_equations. lia.
Qed.

Lemma be_value_unfold8 (x0 x1 x2 x3 x4 x5 x6 x7 : byte) :
  be_value [x0; x1; x2; x3; x4; x5; x6; x7]
  = ord x0 * 2 ^ 56 + ord x1 * 2 ^ 48 + ord x2 * 2 ^ 40 + ord x3 * 2 ^ 32
    + ord x4 * 2 ^ 24 + ord x5 * 2 ^ 16 + ord x6 * 2 ^ 8 + ord x7.
Proof. unfold be_value. cbn [fold_left]. lia. Qed.

Lemma be_value_range (buf : bytes) :
  length buf = 8%nat -> 0 <= be_value buf < 2 ^ 64.
Proof.
  intros Hlen.
  do 8 (destruct buf as [|? buf]; [discriminate Hlen|]).
  destruct buf; [clear Hlen|discriminate Hlen].
  rewrite be_value_unfold8.
  repeat match goal with x : byte |- _ =>
    pose proof (ord_range x); generalize dependent (ord x); clear x; intros
  end.
  lia.
Qed.

Lemma pack_be64_be_value (buf : bytes) :
  length buf = 8%nat -> pack_be64 (be_value buf) = buf.
Proof.
  intros Hlen.
  do 8 (destruct buf as [|? buf]; [discriminate Hlen|]).
  destruct buf; [clear Hlen|discriminate Hlen].
  unfold pack_be64, be_shifts. cbn [List.map].
  rewrite !shiftr_land_255 by lia. rewrite be_value_unfold8.
  repeat (apply (f_equal2 cons); [apply octet_of_ord|]).
  9: reflexivity.
  all: repeat match goal with x : byte |- _ =>
    pose proof (ord_range x); generalize dependent (ord x); clear x; intros
  end.
  all: change (2 ^ 0) with 1; change (2 ^ 8) with 256;
    change (2 ^ 16) with 65536; change (2 ^ 24) with 16777216;
    change (2 ^ 32) with 4294967296; change (2 ^ 40) with 1099511627776;
    change (2 ^ 48) with 281474976710656;
    change (2 ^ 56) with 72057594037927936.
  all: Z.div_mod_to_equations; lia.
Qed.

Lemma struct_pack_Q_in_range (v : Z) :
  0 <= v < 2 ^ 64 -> struct_pack_Q v = Return (pack_be64 v).
Proof.
  intros Hv. unfold struct_pack_Q.
  destruct (Z.leb_spec 0 v), (Z.ltb_spec v (2 ^ 64)); cbn; (reflexivity || lia).
Qed.

Lemma struct_pack_Q_out_of_range (v : Z) :
  ~ 0 <= v < 2 ^ 64 -> struct_pack_Q v = Raise struct_error.
Proof.
  intros Hv. unfold struct_pack_Q.
  destruct (Z.leb_spec 0 v), (Z.ltb_spec v (2 ^ 64)); cbn; (reflexivity || lia).
Qed.

Lemma struct_unpack_Q_length (buf : bytes) :
  length buf = 8%nat -> struct_unpack_Q buf = Return (be_value buf).
Proof. intros H. unfold struct_unpack_Q. rewrite H. reflexivity. Qed.

(** ** UTF-8 *)

Lemma lor_high (a y n : Z) :
  0 <= n -> a mod 2 ^ n = 0 -> 0 <= y < 2 ^ n -> Z.lor a y = a + y.
Proof.
  intros Hn Ha Hy. symmetry. apply Z.add_nocarry_lor.
  rewrite <- (Z.mod_small y (2 ^ n)) by lia.
  rewrite <- Z.land_ones by lia.
  rewrite (Z.land_comm y), Z.land_assoc, Z.land_ones by lia.
  rewrite Ha. apply Z.land_0_l.
Qed.

Lemma land_3F (c : Z) : Z.land c 0x3F = c mod 64.
Proof. change 0x3F with (Z.ones 6). rewrite Z.land_ones by lia. reflexivity. Qed.

Lemma lor_80 (y : Z) : 0 <= y < 64 -> Z.lor 0x80 y = 0x80 + y.
Proof. intros H. apply (lor_high 0x80 y 6); [lia | reflexivity | exact H]. Qed.

Lemma lor_C0 (y : Z) : 0 <= y < 32 -> Z.lor 0xC0 y = 0xC0 + y.
Proof. intros H. apply (lor_high 0xC0 y 5); [lia | reflexivity | exact H]. Qed.

Lemma lor_E0 (y : Z) : 0 <= y < 16 -> Z.lor 0xE0 y = 0xE0 + y.
Proof. intros H. apply (lor_high 0xE0 y 4); [lia | reflexivity | exact H]. Qed.

Lemma lor_F0 (y : Z) : 0 <= y < 8 -> Z.lor 0xF0 y = 0xF0 + y.
Proof. intros H. apply (lor_high 0xF0 y 3); [lia | reflexivity | exact H]. Qed.

(** The encoder in arithmetic: the octets of each of the four forms. *)
Lemma utf8_encode_char_1 (c : Z) :
  0 <= c < 0x80 -> utf8_encode_char c = Some [octet c].
Proof.
  intros H. unfold utf8_encode_char.
  destruct (Z.ltb_spec c 0); [lia|].
  destruct (Z.ltb_spec c 0x80); [reflexivity | lia].
Qed.

Lemma utf8_encode_char_2 (q r : Z) :
  2 <= q < 32 -> 0 <= r < 64 ->
  utf8_encode_char (64 * q + r) = Some [octet (0xC0 + q); octet (0x80 + r)].
Proof.
  intros Hq Hr. unfold utf8_encode_char.
  destruct (Z.ltb_spec (64 * q + r) 0); [lia|].
  destruct (Z.ltb_spec (64 * q + r) 0x80); [lia|].
  destruct (Z.ltb_spec (64 * q + r) 0x800); [|lia].
  rewrite land_3F, Z.shiftr_div_pow2 by lia. change (2 ^ 6) with 64.
  replace ((64 * q + r) / 64) with q by (Z.div_mod_to_equations; lia).
  replace ((64 * q + r) mod 64) with r by (Z.div_mod_to_equations; lia).
  rewrite lor_C0, lor_80 by lia. reflexivity.
Qed.

Lemma utf8_encode_char_3 (p q r : Z) :
  0 <= p < 16 -> 0 <= q < 64 -> 0 <= r < 64 ->
  (p = 0 -> 32 <= q) -> (p = 13 -> q < 32) ->
  utf8_encode_char (4096 * p + 64 * q + r)
  = Some [octet (0xE0 + p); octet (0x80 + q); octet (0x80 + r)].
Proof.
  intros Hp Hq Hr H0 H13. unfold utf8_encode_char.
  set (c := 4096 * p + 64 * q + r).
  destruct (Z.ltb_spec c 0); [lia|].
  destruct (Z.ltb_spec c 0x80); [lia|].
  destruct (Z.ltb_spec c 0x800); [lia|].
  destruct (Z.leb_spec 0xD800 c), (Z.leb_spec c 0xDFFF); cbn [andb]; try lia.
  all: destruct (Z.ltb_spec c 0x10000); [|lia].
  all: rewrite !land_3F, !Z.shiftr_div_pow2 by lia.
  all: change (2 ^ 6) with 64; change (2 ^ 12) with 4096.
  all: replace (c / 4096) with p by (Z.div_mod_to_equations; lia).
  all: replace ((c / 64) mod 64) with q by (Z.div_mod_to_equations; lia).
  all: replace (c mod 64) with r by (Z.div_mod_to_equations; lia).
  all: rewrite lor_E0, !lor_80 by lia; reflexivity.
Qed.

Lemma utf8_encode_char_4 (o p q r : Z) :
  0 <= o < 5 -> 0 <= p < 64 -> 0 <= q < 64 -> 0 <= r < 64 ->
  (o = 0 -> 16 <= p) -> (o = 4 -> p < 16) ->
  utf8_encode_char (262144 * o + 4096 * p + 64 * q + r)
  = Some [octet (0xF0 + o); octet (0x80 + p); octet (0x80 + q);
          octet (0x80 + r)].
Proof.
  intros Ho Hp Hq Hr H0 H4. unfold utf8_encode_char.
  set (c := 262144 * o + 4096 * p + 64 * q + r).
  destruct (Z.ltb_spec c 0); [lia|].
  destruct (Z.ltb_spec c 0x80); [lia|].
  destruct (Z.ltb_spec c 0x800); [lia|].
  destruct (Z.leb_spec 0xD800 c), (Z.leb_spec c 0xDFFF); cbn [andb]; try lia.
  destruct (Z.ltb_spec c 0x10000); [lia|].
  destruct (Z.leb_spec c 0x10FFFF); [|lia].
  rewrite !land_3F, !Z.shiftr_div_pow2 by lia.
  change (2 ^ 6) with 64; change (2 ^ 12) with 4096;
    change (2 ^ 18) with 262144.
  replace (c / 262144) with o by (Z.div_mod_to_equations; lia).
  replace ((c / 4096) mod 64) with p by (Z.div_mod_to_equations; lia).
  replace ((c / 64) mod 64) with q by (Z.div_mod_to_equations; lia).
  replace (c mod 64) with r by (Z.div_mod_to_equations; lia).
  rewrite lor_F0, !lor_80 by lia. reflexivity.
Qed.

Lemma utf8_form_encode (c : Z) (enc : bytes) :
  utf8_form c enc -> utf8_encode_char c = Some enc.
Proof.
  destruct 1.
  - apply utf8_encode_char_1; assumption.
  - apply utf8_encode_char_2; assumption.
  - apply utf8_encode_char_3; assumption.
  - apply utf8_encode_char_4; assumption.
Qed.

Lemma utf8_encode_form (c : Z) (enc : bytes) :
  utf8_encode_char c = Some enc -> utf8_form c enc.
Proof.
  intros H.
  assert (Hc : 0 <= c <= 0x10FFFF /\ ~ 0xD800 <= c <= 0xDFFF).
  { revert H. unfold utf8_encode_char.
    destruct (Z.ltb_spec c 0); [discriminate|].
    destruct (Z.ltb_spec c 0x80); [lia|].
    destruct (Z.ltb_spec c 0x800); [lia|].
    destruct (Z.leb_spec 0xD800 c), (Z.leb_spec c 0xDFFF); cbn [andb];
      try discriminate.
    all: destruct (Z.ltb_spec c 0x10000); [lia|].
    all: destruct (Z.leb_spec c 0x10FFFF); [lia | discriminate]. }
  assert (F : exists enc', utf8_form c enc').
  { destruct (Z.ltb_spec c 0x80); [eexists; apply utf8_form_1; lia|].
    destruct (Z.ltb_spec c 0x800).
    { exists [octet (0xC0 + c / 64); octet (0x80 + c mod 64)].
      replace c with (64 * (c / 64) + c mod 64) at 1
        by (Z.div_mod_to_equations; lia).
      apply utf8_form_2; Z.div_mod_to_equations; lia. }
    destruct (Z.ltb_spec c 0x10000).
    { exists [octet (0xE0 + c / 4096); octet (0x80 + (c / 64) mod 64);
              octet (0x80 + c mod 64)].
      replace c with (4096 * (c / 4096) + 64 * ((c / 64) mod 64) + c mod 64)
        at 1 by (Z.div_mod_to_equations; lia).
      apply utf8_form_3; Z.div_mod_to_equations; lia. }
    exists [octet (0xF0 + c / 262144); octet (0x80 + (c / 4096) mod 64);
            octet (0x80 + (c / 64) mod 64); octet (0x80 + c mod 64)].
    replace c with (262144 * (c / 262144) + 4096 * ((c / 4096) mod 64)
                    + 64 * ((c / 64) mod 64) + c mod 64)
      at 1 by (Z.div_mod_to_equations; lia).
    apply utf8_form_4; Z.div_mod_to_equations; lia. }
  destruct F as [enc' F].
  pose proof (utf8_form_encode c enc' F) as E.
  rewrite H in E. injection E as ->. exact F.
Qed.

Lemma is_continuation_true (c : Z) :
  0x80 <= c < 0xC0 -> is_continuation c = true.
Proof.
  intros H. unfold is_continuation.
  destruct (Z.leb_spec 0x80 c), (Z.ltb_spec c 0xC0); (reflexivity || lia).
Qed.

Lemma is_continuation_inv (c : Z) :
  is_continuation c = true -> 0x80 <= c < 0xC0.
Proof.
  unfold is_continuation.
  destruct (Z.leb_spec 0x80 c), (Z.ltb_spec c 0xC0); (discriminate || lia).
Qed.

Lemma decode_form (c : Z) (enc rest : bytes) :
  utf8_form c enc ->
  bytes_decode_utf8_ignore (enc ++ rest) = c :: bytes_decode_utf8_ignore rest.
Proof.
  destruct 1; cbn [app bytes_decode_utf8_ignore];
    rewrite ?ord_octet by lia; rewrite ?is_continuation_true by lia;
    cbn [negb orb].
  - destruct (Z.ltb_spec c 0x80); [reflexivity | lia].
  - decide_Z. f_equal. lia.
  - decide_Z; f_equal; lia.
  - decide_Z; f_equal; lia.
Qed.

(** The strings that [encode] accepts are the texts. *)
Lemma utf8_encode_char_defined (c : Z) :
  (exists enc, utf8_encode_char c = Some enc)
  <-> 0 <= c <= 0x10FFFF /\ ~ 0xD800 <= c <= 0xDFFF.
Proof.
  unfold utf8_encode_char.
  destruct (Z.ltb_spec c 0);
    [split; [intros [? ?]; discriminate | lia]|].
  destruct (Z.ltb_spec c 0x80); [split; [lia | eauto]|].
  destruct (Z.ltb_spec c 0x800); [split; [lia | eauto]|].
  destruct (Z.leb_spec 0xD800 c), (Z.leb_spec c 0xDFFF); cbn [andb];
    try (split; [intros [? ?]; discriminate | lia]).
  all: destruct (Z.ltb_spec c 0x10000); [split; [lia | eauto]|].
  all: destruct (Z.leb_spec c 0x10FFFF);
    [split; [lia | eauto] | split; [intros [? ?]; discriminate | lia]].
Qed.

Lemma str_encode_utf8_defined (t : str) :
  (exists enc, str_encode_utf8 t = Return enc) <-> is_text t.
Proof.
  unfold is_text. induction t as [|c t IH]; cbn [str_encode_utf8].
  - split; [constructor | eauto].
  - rewrite Forall_cons, <- IH, <- utf8_encode_char_defined.
    destruct (utf8_encode_char c) as [e|].
    + destruct (str_encode_utf8 t) as [rest|err].
      * split; eauto.
      * split; [intros [? ?]; discriminate|].
        intros [_ [? ?]]; discriminate.
    + split; [intros [? ?]; discriminate|].
      intros [[? ?] _]; discriminate.
Qed.

(** Decoding what the encoder made gives the string back. *)
Lemma decode_encode (t : str) (enc : bytes) :
  str_encode_utf8 t = Return enc -> bytes_decode_utf8_ignore enc = t.
Proof.
  revert enc. induction t as [|c t IH]; intros enc H; cbn in H.
  - injection H as <-. reflexivity.
  - destruct (utf8_encode_char c) as [e|] eqn:Ec; [|discriminate].
    destruct (str_encode_utf8 t) as [rest|]; [|discriminate].
    injection H as <-.
    rewrite (decode_form c e rest (utf8_encode_form c e Ec)).
    rewrite (IH rest eq_refl). reflexivity.
Qed.

(** The sequences the decoder accepts are the four forms. *)
Ltac octets_as_forms :=
  repeat (apply (f_equal2 cons); [apply octet_of_ord; lia|]);
  reflexivity.

Lemma form_of_octets_1 (x0 : byte) :
  ord x0 < 0x80 -> utf8_form (ord x0) [x0].
Proof.
  intros H. pose proof (ord_range x0).
  replace [x0] with [octet (ord x0)] by (rewrite octet_ord; reflexivity).
  apply utf8_form_1. lia.
Qed.

Lemma form_of_octets_2 (x0 x1 : byte) :
  0xC2 <= ord x0 < 0xE0 -> 0x80 <= ord x1 < 0xC0 ->
  utf8_form (ord x0 * 64 + ord x1 - (0xC0 * 64 + 0x80)) [x0; x1].
Proof.
  intros H0 H1.
  replace [x0; x1]
    with [octet (0xC0 + (ord x0 - 0xC0)); octet (0x80 + (ord x1 - 0x80))]
    by octets_as_forms.
  replace (ord x0 * 64 + ord x1 - (0xC0 * 64 + 0x80))
    with (64 * (ord x0 - 0xC0) + (ord x1 - 0x80)) by lia.
  apply utf8_form_2; lia.
Qed.

Lemma form_of_octets_3 (x0 x1 x2 : byte) :
  0xE0 <= ord x0 < 0xF0 -> 0x80 <= ord x1 < 0xC0 -> 0x80 <= ord x2 < 0xC0 ->
  (ord x0 = 0xE0 -> 0xA0 <= ord x1) -> (ord x0 = 0xED -> ord x1 < 0xA0) ->
  utf8_form (ord x0 * 4096 + ord x1 * 64 + ord x2
             - (0xE0 * 4096 + 0x80 * 64 + 0x80)) [x0; x1; x2].
Proof.
  intros H0 H1 H2 HE0 HED.
  replace [x0; x1; x2]
    with [octet (0xE0 + (ord x0 - 0xE0)); octet (0x80 + (ord x1 - 0x80));
          octet (0x80 + (ord x2 - 0x80))]
    by octets_as_forms.
  replace (ord x0 * 4096 + ord x1 * 64 + ord x2
           - (0xE0 * 4096 + 0x80 * 64 + 0x80))
    with (4096 * (ord x0 - 0xE0) + 64 * (ord x1 - 0x80) + (ord x2 - 0x80))
    by lia.
  apply utf8_form_3; lia.
Qed.

Lemma form_of_octets_4 (x0 x1 x2 x3 : byte) :
  0xF0 <= ord x0 < 0xF5 -> 0x80 <= ord x1 < 0xC0 -> 0x80 <= ord x2 < 0xC0 ->
  0x80 <= ord x3 < 0xC0 ->
  (ord x0 = 0xF0 -> 0x90 <= ord x1) -> (ord x0 = 0xF4 -> ord x1 < 0x90) ->
  utf8_form (ord x0 * 262144 + ord x1 * 4096 + ord x2 * 64 + ord x3
             - (0xF0 * 262144 + 0x80 * 4096 + 0x80 * 64 + 0x80))
    [x0; x1; x2; x3].
Proof.
  intros H0 H1 H2 H3 HF0 HF4.
  replace [x0; x1; x2; x3]
    with [octet (0xF0 + (ord x0 - 0xF0)); octet (0x80 + (ord x1 - 0x80));
          octet (0x80 + (ord x2 - 0x80)); octet (0x80 + (ord x3 - 0x80))]
    by octets_as_forms.
  replace (ord x0 * 262144 + ord x1 * 4096 + ord x2 * 64 + ord x3
           - (0xF0 * 262144 + 0x80 * 4096 + 0x80 * 64 + 0x80))
    with (262144 * (ord x0 - 0xF0) + 4096 * (ord x1 - 0x80)
          + 64 * (ord x2 - 0x80) + (ord x3 - 0x80))
    by lia.
  apply utf8_form_4; lia.
Qed.

Lemma reencodes_nil (fr : bytes) : reencodes [] fr.
Proof. exists []. split; [reflexivity | apply sublist_nil_l]. Qed.

Lemma reencodes_skip (t : str) (x : byte) (fr : bytes) :
  reencodes t fr -> reencodes t (x :: fr).
Proof.
  intros (kb & Hkb & Hsub). exists kb. split; [exact Hkb|].
  apply sublist_cons. exact Hsub.
Qed.

Lemma reencodes_emit (c : Z) (enc : bytes) (t : str) (fr : bytes) :
  utf8_form c enc -> reencodes t fr -> reencodes (c :: t) (enc ++ fr).
Proof.
  intros Hform (kb & Hkb & Hsub). exists (enc ++ kb). split.
  - cbn [str_encode_utf8]. rewrite (utf8_form_encode c enc Hform), Hkb.
    reflexivity.
  - apply sublist_app; [reflexivity | exact Hsub].
Qed.

Lemma decode_reencodes_upto (n : nat) (fr : bytes) :
  (length fr <= n)%nat -> reencodes (bytes_decode_utf8_ignore fr) fr.
Proof.
  revert fr. induction n as [|n IH]; intros fr Hlen.
  { destruct fr; [apply reencodes_nil | cbn in Hlen; lia]. }
  destruct fr as [|x0 s1]; [apply reencodes_nil|].
  cbn [length] in Hlen.
  assert (IH1 : reencodes (bytes_decode_utf8_ignore s1) s1) by (apply IH; lia).
  cbn [bytes_decode_utf8_ignore].
  pose proof (ord_range x0) as R0.
  destruct (Z.ltb_spec (ord x0) 0x80).
  { apply (reencodes_emit _ [x0]); [apply form_of_octets_1; lia | exact IH1]. }
  destruct (Z.ltb_spec (ord x0) 0xC2); [apply reencodes_skip; exact IH1|].
  destruct s1 as [|x1 s2].
  { decide_Z; first [apply reencodes_nil | apply reencodes_skip, reencodes_nil]. }
  cbn [length] in Hlen.
  assert (IH2 : reencodes (bytes_decode_utf8_ignore s2) s2) by (apply IH; lia).
  cbv match.
  destruct (is_continuation (ord x1)) eqn:E1; cbn [negb orb];
    [apply is_continuation_inv in E1
    | decide_Z; apply reencodes_skip; exact IH1].
  destruct (Z.ltb_spec (ord x0) 0xE0).
  { apply (reencodes_emit _ [x0; x1]);
      [apply form_of_octets_2; lia | exact IH2]. }
  destruct s2 as [|x2 s3].
  { decide_Z; first [apply reencodes_nil | apply reencodes_skip; exact IH1]. }
  cbn [length] in Hlen.
  assert (IH3 : reencodes (bytes_decode_utf8_ignore s3) s3) by (apply IH; lia).
  cbv match.
  destruct (Z.ltb_spec (ord x0) 0xF0).
  { destruct (Z.ltb_spec (ord x1) 0xA0), (Z.eqb_spec (ord x0) 0xE0),
      (Z.eqb_spec (ord x0) 0xED); try lia;
      try (apply reencodes_skip; exact IH1).
    all: destruct (is_continuation (ord x2)) eqn:E2; cbn [negb];
      [apply is_continuation_inv in E2
      | apply reencodes_skip, reencodes_skip; exact IH2].
    all: apply (reencodes_emit _ [x0; x1; x2]);
      [apply form_of_octets_3; lia | exact IH3]. }
  destruct (Z.ltb_spec (ord x0) 0xF5);
    [|apply reencodes_skip; exact IH1].
  destruct (Z.ltb_spec (ord x1) 0x90), (Z.eqb_spec (ord x0) 0xF0),
    (Z.eqb_spec (ord x0) 0xF4); try lia;
    try (apply reencodes_skip; exact IH1).
  all: destruct (is_continuation (ord x2)) eqn:E2; cbn [negb];
    [apply is_continuation_inv in E2
    | apply reencodes_skip, reencodes_skip; exact IH2].
  all: destruct s3 as [|x3 s4]; [apply reencodes_nil|].
  all: cbn [length] in Hlen.
  all: assert (IH4 : reencodes (bytes_decode_utf8_ignore s4) s4)
    by (apply IH; lia).
  all: destruct (is_continuation (ord x3)) eqn:E3; cbn [negb];
    [apply is_continuation_inv in E3
    | apply reencodes_skip, reencodes_skip, reencodes_skip; exact IH3].
  all: apply (reencodes_emit _ [x0; x1; x2; x3]);
    [apply form_of_octets_4; lia | exact IH4].
Qed.

Lemma decode_invalid_start (x : byte) (fr : bytes) :
  invalid_start x ->
  bytes_decode_utf8_ignore (x :: fr) = bytes_decode_utf8_ignore fr.
Proof.
  intros Hx. unfold invalid_start in Hx. cbn [bytes_decode_utf8_ignore].
  destruct (Z.ltb_spec (ord x) 0x80); [lia|].
  destruct (Z.ltb_spec (ord x) 0xC2); [reflexivity|].
  destruct (Z.ltb_spec (ord x) 0xE0); [lia|].
  destruct (Z.ltb_spec (ord x) 0xF0); [lia|].
  destruct (Z.ltb_spec (ord x) 0xF5); [lia | reflexivity].
Qed.

(** ** One round trip on the socket *)

Section RoundTrip.
Context {Server : Type}.
Variable serve : Server -> list bytes -> Server * list bytes.

Lemma connect_idle (p : Server) : idle (connect p).
Proof. reflexivity. Qed.

Lemma put_run (s : socket) (key : str) (ts : Z) (data kb : bytes) :
  idle s -> 0 <= ts < 2 ^ 64 -> str_encode_utf8 key = Return kb ->
  let req := [b "PUT"; kb; pack_be64 ts; data] in
  put serve key ts data s
  = (put_reply (snd (serve (peer s) req)),
     {| peer := fst (serve (peer s) req); awaiting := None;
        sent := sent s ++ [req] |}).
Proof.
  intros Hs Hts Hkey req. unfold put, bind, lift.
  rewrite (struct_pack_Q_in_range _ Hts), Hkey.
  unfold send_multipart, recv_multipart. rewrite Hs. fold req.
  destruct (serve (peer s) req) as [p' rep]. reflexivity.
Qed.

Lemma get_run (s : socket) (key : str) (kb : bytes) :
  idle s -> str_encode_utf8 key = Return kb ->
  let req := [b "GET"; kb] in
  get serve key s
  = (get_reply (snd (serve (peer s) req)),
     {| peer := fst (serve (peer s) req); awaiting := None;
        sent := sent s ++ [req] |}).
Proof.
  intros Hs Hkey req. unfold get, bind, lift. rewrite Hkey.
  unfold send_multipart, recv_multipart. rewrite Hs. fold req.
  destruct (serve (peer s) req) as [p' rep]. reflexivity.
Qed.

Lemma put_idle (s : socket) (key : str) (ts : Z) (data : bytes) :
  idle s -> idle (snd (put serve key ts data s)).
Proof.
  intros Hs. unfold put, bind, lift.
  destruct (struct_pack_Q ts); [|exact Hs].
  destruct (str_encode_utf8 key); [|exact Hs].
  unfold send_multipart, recv_multipart. rewrite Hs.
  destruct (serve (peer s) _) as [p' rep]. reflexivity.
Qed.

Lemma get_idle (s : socket) (key : str) :
  idle s -> idle (snd (get serve key s)).
Proof.
  intros Hs. unfold get, bind, lift.
  destruct (str_encode_utf8 key); [|exact Hs].
  unfold send_multipart, recv_multipart. rewrite Hs.
  destruct (serve (peer s) _) as [p' rep]. reflexivity.
Qed.
End RoundTrip.

(** ** Reading a reply *)

Lemma put_reply_cons (rep0 : bytes) (rest : list bytes) :
  put_reply (rep0 :: rest)
  = let code := bytes_decode_utf8_ignore rep0 in
    if str_eqb code (lit "OK") || str_eqb code (lit "STALE") then Return code
    else if str_eqb code (lit "ERR")
    then Raise (RuntimeError (lit "PUT ERR: " ++ err_message rest))
    else Raise (RuntimeError (lit "Unexpected reply: "
                              ++ list_repr (rep0 :: rest))).
Proof. destruct rest; reflexivity. Qed.

Lemma get_reply_cons (rep0 : bytes) (rest : list bytes) :
  get_reply (rep0 :: rest)
  = let code := bytes_decode_utf8_ignore rep0 in
    if str_eqb code (lit "MISS") then Return None
    else if str_eqb code (lit "OK") then
      match rest with
      | [tsb; data] =>
        match struct_unpack_Q tsb with
        | Raise e => Raise e
        | Return ts => Return (Some (ts, data))
        end
      | _ => Raise (RuntimeError (lit "malformed OK reply"))
      end
    else if str_eqb code (lit "ERR")
    then Raise (RuntimeError (lit "GET ERR: " ++ err_message rest))
    else Raise (RuntimeError (lit "Unexpected reply: "
                              ++ list_repr (rep0 :: rest))).
Proof.
  unfold get_reply. cbn [length Nat.eqb nth].
  destruct rest as [|r1 [|r2 [|r3 rest]]]; reflexivity.
Qed.

Lemma str_eqb_eq (x y : str) : x = y -> str_eqb x y = true.
Proof. intros H. unfold str_eqb. apply bool_decide_eq_true. exact H. Qed.

Lemma str_eqb_neq (x y : str) : x <> y -> str_eqb x y = false.
Proof. intros H. unfold str_eqb. apply bool_decide_eq_false. exact H. Qed.

(** Two errors whose messages start with different characters differ. *)
Lemma raise_differ {A : Type} (x y : str) :
  hd 0 x <> hd 0 y -> @Raise A (RuntimeError x) <> Raise (RuntimeError y).
Proof. intros H E. apply H. congruence. Qed.

Ltac tag_is H :=
  rewrite H; repeat (first [rewrite str_eqb_eq by reflexivity
                           | rewrite str_eqb_neq by (vm_compute; discriminate)]);
  cbn [orb].

Ltac tag_is_not :=
  repeat (rewrite str_eqb_neq by assumption); cbn [orb].

Ltac messages_differ := apply raise_differ; vm_compute; discriminate.

(** ** The store and the round trip through it *)

Lemma reference_conforms : conforms reference (fun st => st).
Proof.
  split.
  - intros st K T P HT Hnew. unfold reference.
    change (bytes_eqb (b "PUT") (b "PUT")) with true. cbv match.
    rewrite struct_unpack_Q_length by apply pack_be64_length.
    rewrite be_value_pack_be64 by exact HT.
    destruct (st !! K) as [[t0 p0]|].
    + destruct (Z.ltb_spec t0 T); [|lia]. eexists. split; reflexivity.
    + eexists. split; reflexivity.
  - intros st K T P t0 p0 HT Hold Hle. unfold reference.
    change (bytes_eqb (b "PUT") (b "PUT")) with true. cbv match.
    rewrite struct_unpack_Q_length by apply pack_be64_length.
    rewrite be_value_pack_be64 by exact HT. rewrite Hold.
    destruct (Z.ltb_spec t0 T); [lia|]. eexists. split; reflexivity.
  - intros st K t p Hfound. unfold reference.
    change (bytes_eqb (b "GET") (b "GET")) with true. cbv match.
    rewrite Hfound. eexists. split; reflexivity.
  - intros st K Hnone. unfold reference.
    change (bytes_eqb (b "GET") (b "GET")) with true. cbv match.
    rewrite Hnone. eexists. split; reflexivity.
Qed.

(** ** The calls, case by case *)

Section Calls.
Context {Server : Type}.
Variable serve : Server -> list bytes -> Server * list bytes.

Lemma put_cases (s : socket) (key : str) (ts : Z) (data : bytes) :
  put serve key ts data s
  = match struct_pack_Q ts with
    | Raise e => (Raise e, s)
    | Return tb =>
      match str_encode_utf8 key with
      | Raise e => (Raise e, s)
      | Return kb =>
        match awaiting s with
        | Some _ => (Raise ZMQError, s)
        | None =>
          (put_reply (snd (serve (peer s) [b "PUT"; kb; tb; data])),
           {| peer := fst (serve (peer s) [b "PUT"; kb; tb; data]);
              awaiting := None;
              sent := sent s ++ [[b "PUT"; kb; tb; data]] |})
        end
      end
    end.
Proof.
  unfold put, bind, lift, send_multipart, recv_multipart.
  destruct (struct_pack_Q ts) as [tb|]; [|reflexivity].
  destruct (str_encode_utf8 key) as [kb|]; [|reflexivity].
  destruct (awaiting s); [reflexivity|].
  destruct (serve (peer s) _). reflexivity.
Qed.

Lemma get_cases (s : socket) (key : str) :
  get serve key s
  = match str_encode_utf8 key with
    | Raise e => (Raise e, s)
    | Return kb =>
      match awaiting s with
      | Some _ => (Raise ZMQError, s)
      | None =>
        (get_reply (snd (serve (peer s) [b "GET"; kb])),
         {| peer := fst (serve (peer s) [b "GET"; kb]);
            awaiting := None;
            sent := sent s ++ [[b "GET"; kb]] |})
      end
    end.
Proof.
  unfold get, bind, lift, send_multipart, recv_multipart.
  destruct (str_encode_utf8 key) as [kb|]; [|reflexivity].
  destruct (awaiting s); [reflexivity|].
  destruct (serve (peer s) _). reflexivity.
Qed.

End Calls.

Lemma struct_pack_Q_inv (v : Z) (tb : bytes) :
  struct_pack_Q v = Return tb -> 0 <= v < 2 ^ 64 /\ tb = pack_be64 v.
Proof.
  unfold struct_pack_Q.
  destruct (Z.leb_spec 0 v), (Z.ltb_spec v (2 ^ 64)); cbn [andb];
    try discriminate.
  intros E. injection E as <-. split; [lia | reflexivity].
Qed.

Lemma str_encode_utf8_raises (t : str) (e : exn) :
  str_encode_utf8 t = Raise e -> e = UnicodeEncodeError.
Proof.
  induction t as [|c t IH]; cbn [str_encode_utf8]; [discriminate|].
  destruct (utf8_encode_char c); [|intros E; injection E as <-; reflexivity].
  destruct (str_encode_utf8 t); [discriminate|].
  intros E. injection E as <-. apply IH. reflexivity.
Qed.

Lemma str_encode_utf8_not_text (t : str) :
  ~ is_text t -> str_encode_utf8 t = Raise UnicodeEncodeError.
Proof.
  intros Hn. destruct (str_encode_utf8 t) as [enc|e] eqn:E.
  - exfalso. apply Hn. apply str_encode_utf8_defined. eauto.
  - rewrite (str_encode_utf8_raises t e E). reflexivity.
Qed.

Lemma put_reply_returns (rep : list bytes) (v : str) :
  put_reply rep = Return v ->
  (v = lit "OK" \/ v = lit "STALE")
  /\ exists rep0 rest, rep = rep0 :: rest /\ bytes_decode_utf8_ignore rep0 = v.
Proof.
  destruct rep as [|rep0 rest]; [discriminate|].
  rewrite put_reply_cons. cbv zeta. unfold str_eqb.
  repeat case_bool_decide; cbn [orb]; try discriminate.
  all: intros E; injection E as <-; split; eauto.
Qed.

Lemma get_reply_returns (rep : list bytes) (r : option (Z * bytes)) :
  get_reply rep = Return r ->
  exists rep0 rest, rep = rep0 :: rest
    /\ match r with
       | None => bytes_decode_utf8_ignore rep0 = lit "MISS"
       | Some (ts, data) =>
         bytes_decode_utf8_ignore rep0 = lit "OK"
         /\ rest = [pack_be64 ts; data] /\ 0 <= ts < 2 ^ 64
       end.
Proof.
  destruct rep as [|rep0 rest]; [discriminate|].
  rewrite get_reply_cons. cbv zeta. unfold str_eqb.
  repeat case_bool_decide; try discriminate.
  - intros E. injection E as <-. eauto.
  - destruct rest as [|tsb [|data [|r3 rest]]]; try discriminate.
    unfold struct_unpack_Q. destruct (length tsb =? 8)%nat eqn:L;
      [|discriminate].
    apply Nat.eqb_eq in L. intros E. injection E as <-.
    exists rep0, [tsb; data]. split; [reflexivity|].
    split; [assumption|]. rewrite (pack_be64_be_value tsb L).
    split; [reflexivity | apply be_value_range; exact L].
Qed.

Lemma put_reply_raises (rep : list bytes) (e : exn) :
  put_reply rep = Raise e ->
  exists msg, e = RuntimeError msg
    /\ (msg = lit "empty reply"
        \/ (exists m, msg = lit "PUT ERR: " ++ bytes_decode_utf8_ignore m)
        \/ msg = lit "PUT ERR: " ++ lit ""
        \/ msg = lit "Unexpected reply: " ++ list_repr rep).
Proof.
  destruct rep as [|rep0 rest].
  { intros E. injection E as <-. eauto. }
  rewrite put_reply_cons. cbv zeta.
  destruct (_ || _); [discriminate|].
  destruct (str_eqb _ _); intros E; injection E as <-.
  - destruct rest as [|m more]; cbn [err_message]; eauto 7.
  - eauto 7.
Qed.

Lemma get_reply_raises (rep : list bytes) (e : exn) :
  get_reply rep = Raise e ->
  e = struct_error
  \/ exists msg, e = RuntimeError msg
       /\ (msg = lit "empty reply" \/ msg = lit "malformed OK reply"
           \/ (exists m, msg = lit "GET ERR: " ++ bytes_decode_utf8_ignore m)
           \/ msg = lit "GET ERR: " ++ lit ""
           \/ msg = lit "Unexpected reply: " ++ list_repr rep).
Proof.
  destruct rep as [|rep0 rest].
  { intros E. injection E as <-. eauto 7. }
  rewrite get_reply_cons. cbv zeta.
  destruct (str_eqb _ (lit "MISS")); [discriminate|].
  destruct (str_eqb _ (lit "OK")).
  - destruct rest as [|tsb [|data [|r3 rest]]];
      try (intros E; injection E as <-; eauto 7).
    unfold struct_unpack_Q. destruct (_ =? _)%nat; [discriminate|].
    intros E; injection E as <-. eauto.
  - destruct (str_eqb _ _); intros E; injection E as <-.
    + destruct rest as [|m more]; cbn [err_message]; eauto 9.
    + eauto 9.
Qed.

(** ** The outcome tells the reply

    Each kind of outcome of [put_reply] and [get_reply] goes with one kind
    of reply, and with no other. *)

(** Close a goal from an equation or inequation that cannot hold. *)
Ltac refute H :=
  first [ discriminate H
        | exfalso; apply H; reflexivity
        | vm_compute in H; discriminate H ].

Ltac refute_any :=
  match goal with
  | H : _ = _ |- _ => refute H
  | H : _ <> _ |- _ => refute H
  end.

Ltac settle_side :=
  repeat match goal with
         | H : exists _, _ |- _ => destruct H
         | H : _ /\ _ |- _ => destruct H
         | H : _ :: _ = _ :: _ |- _ => inversion H; subst; clear H
         end;
  first [ reflexivity
        | assumption
        | eexists; reflexivity
        | eexists _, _; split; [reflexivity | assumption]
        | repeat split; assumption
        | contradiction
        | cbn [length]; lia
        | refute_any ].

Lemma put_reply_classes (rep0 : bytes) (rest : list bytes) :
  let code := bytes_decode_utf8_ignore rep0 in
  let out := put_reply (rep0 :: rest) in
  (out = Return (lit "OK") <-> code = lit "OK")
  /\ (out = Return (lit "STALE") <-> code = lit "STALE")
  /\ ((exists msg, out = Raise (RuntimeError (lit "PUT ERR: " ++ msg)))
      <-> code = lit "ERR")
  /\ ((exists shown,
         out = Raise (RuntimeError (lit "Unexpected reply: " ++ shown)))
      <-> code <> lit "OK" /\ code <> lit "STALE" /\ code <> lit "ERR").
Proof.
  cbv zeta. rewrite put_reply_cons. cbv zeta.
  generalize (list_repr (rep0 :: rest)) (err_message rest).
  generalize (bytes_decode_utf8_ignore rep0). intros code shown0 msg0.
  unfold str_eqb. repeat case_bool_decide; cbn [orb]; subst.
  all: repeat split; intros; settle_side.
Qed.

Lemma get_reply_classes (rep0 : bytes) (rest : list bytes) :
  let code := bytes_decode_utf8_ignore rep0 in
  let out := get_reply (rep0 :: rest) in
  (out = Return None <-> code = lit "MISS")
  /\ ((exists found, out = Return (Some found))
      <-> code = lit "OK"
          /\ exists tsb data, rest = [tsb; data] /\ length tsb = 8%nat)
  /\ (out = Raise (RuntimeError (lit "malformed OK reply"))
      <-> code = lit "OK" /\ length rest <> 2%nat)
  /\ (out = Raise struct_error
      <-> code = lit "OK"
          /\ exists tsb data, rest = [tsb; data] /\ length tsb <> 8%nat)
  /\ ((exists msg, out = Raise (RuntimeError (lit "GET ERR: " ++ msg)))
      <-> code = lit "ERR")
  /\ ((exists shown,
         out = Raise (RuntimeError (lit "Unexpected reply: " ++ shown)))
      <-> code <> lit "MISS" /\ code <> lit "OK" /\ code <> lit "ERR").
Proof.
  cbv zeta. rewrite get_reply_cons. cbv zeta.
  generalize (list_repr (rep0 :: rest)) (err_message rest).
  generalize (bytes_decode_utf8_ignore rep0). intros code shown0 msg0.
  unfold str_eqb. repeat case_bool_decide; subst.
  2:{ destruct rest as [|tsb [|data [|x rest]]];
        [| |unfold struct_unpack_Q;
            destruct (Nat.eqb_spec (length tsb) 8)|].
      all: repeat split; intros; settle_side. }
  all: repeat split; intros; settle_side.
Qed.

(** * The claims *)



(** C2. Whatever reply [get] receives, its first frame, decoded, decides
    the outcome: on MISS [get] returns None; on OK with three frames of
    which the second has eight octets it returns the pair of the
    timestamp, read from those octets as a big-endian unsigned number, and
    the third frame as it is; on ERR it raises the error that carries the
    server's message, and on any other tag the protocol error
    "Unexpected reply: ...". *)
Theorem get_outcome_by_tag {Server : Type}
    (serve : Server -> list bytes -> Server * list bytes)
    (s : socket) (key : str) (kb rep0 : bytes) (rest : list bytes) :
  idle s -> str_encode_utf8 key = Return kb ->
  snd (serve (peer s) [b "GET"; kb]) = rep0 :: rest ->
  let code := bytes_decode_utf8_ignore rep0 in
  let outcome := fst (get serve key s) in
  (code = lit "MISS" -> outcome = Return None)
  /\ (code = lit "OK" ->
      forall (x0 x1 x2 x3 x4 x5 x6 x7 : byte) (payload : bytes),
        rest = [[x0; x1; x2; x3; x4; x5; x6; x7]; payload] ->
        outcome
        = Return (Some (ord x0 * 2 ^ 56 + ord x1 * 2 ^ 48 + ord x2 * 2 ^ 40
                        + ord x3 * 2 ^ 32 + ord x4 * 2 ^ 24 + ord x5 * 2 ^ 16
                        + ord x6 * 2 ^ 8 + ord x7, payload)))
  /\ (code = lit "ERR" ->
      outcome = Raise (RuntimeError (lit "GET ERR: " ++ err_message rest)))
  /\ (code <> lit "MISS" -> code <> lit "OK" -> code <> lit "ERR" ->
      outcome = Raise (RuntimeError (lit "Unexpected reply: "
                                     ++ list_repr (rep0 :: rest)))).
Proof.
  intros Hs Hkey Hrep code outcome. subst outcome.
  rewrite (get_run serve s key kb Hs Hkey). cbn [fst].
  rewrite Hrep, get_reply_cons. fold code. cbv zeta.
  repeat split.
  - intros H. tag_is H. reflexivity.
  - intros H x0 x1 x2 x3 x4 x5 x6 x7 payload ->. tag_is H.
    rewrite struct_unpack_Q_length by reflexivity.
    rewrite be_value_unfold8. reflexivity.
  - intros H. tag_is H. reflexivity.
  - intros. tag_is_not. reflexivity.
Qed.

Lemma get_outcome_by_tag_witness :
  fst (get (canned [b "MISS"]) (lit "greeting") (connect tt)) = Return None.
Proof.
  apply (get_outcome_by_tag (canned [b "MISS"]) (connect tt) (lit "greeting")
           (b "greeting") (b "MISS") []);
    [reflexivity | reflexivity | reflexivity | reflexivity].
Defined.

(** C3. [put] sends one request of exactly four frames: the tag PUT, the
    key in UTF-8, the timestamp as eight octets that read back big-endian
    as the timestamp, and the payload as it is; [get] sends one request of
    exactly two frames: the tag GET and the key in UTF-8.  The key is a
    text and the timestamp an unsigned 64-bit number. *)
Theorem requests_on_the_wire {Server : Type}
    (serve : Server -> list bytes -> Server * list bytes)
    (s : socket) (key : str) (ts : Z) (data : bytes) :
  idle s -> is_text key -> 0 <= ts < 2 ^ 64 ->
  exists kb,
    str_encode_utf8 key = Return kb
    /\ bytes_decode_utf8_ignore kb = key
    /\ sent (snd (put serve key ts data s))
       = sent s ++ [[b "PUT"; kb; pack_be64 ts; data]]
    /\ length (pack_be64 ts) = 8%nat
    /\ be_value (pack_be64 ts) = ts
    /\ sent (snd (get serve key s)) = sent s ++ [[b "GET"; kb]].
Proof.
  intros Hs Htext Hts.
  destruct (proj2 (str_encode_utf8_defined key) Htext) as [kb Hkey].
  exists kb. split; [exact Hkey|].
  split; [apply decode_encode; exact Hkey|].
  rewrite (put_run serve s key ts data kb Hs Hts Hkey).
  rewrite (get_run serve s key kb Hs Hkey). cbn [snd sent].
  split; [reflexivity|]. split; [apply pack_be64_length|].
  split; [apply be_value_pack_be64; exact Hts | reflexivity].
Qed.

Lemma requests_on_the_wire_witness :
  exists kb,
    str_encode_utf8 (lit "greeting") = Return kb
    /\ bytes_decode_utf8_ignore kb = lit "greeting"
    /\ sent (snd (put reference (lit "greeting") 1000 (b "hello") (connect ∅)))
       = [] ++ [[b "PUT"; kb; pack_be64 1000; b "hello"]]
    /\ length (pack_be64 1000) = 8%nat
    /\ be_value (pack_be64 1000) = 1000
    /\ sent (snd (get reference (lit "greeting") (connect ∅)))
       = [] ++ [[b "GET"; kb]].
Proof.
  apply (requests_on_the_wire reference (connect ∅) (lit "greeting") 1000
           (b "hello")); [reflexivity | | lia].
  unfold is_text. change (lit "greeting") with (List.map Z.of_nat
    [103; 114; 101; 101; 116; 105; 110; 103]%nat). cbn [List.map].
  repeat (constructor; [lia|]). constructor.
Defined.

(** C4, as it holds.  Against a store that keeps the contract of section 6,
    for every key that UTF-8 can encode, every timestamp T in [0, 2^64)
    and every payload P, when the store holds no record for the key or one
    with a timestamp strictly less than T, [put] returns "OK" and the
    [get] that follows returns the timestamp T and the payload P, octet
    for octet. *)
Theorem put_then_get {Server : Type}
    (serve : Server -> list bytes -> Server * list bytes)
    (view : Server -> records)
    (s : socket) (key : str) (ts : Z) (data kb : bytes) :
  conforms serve view ->
  idle s -> 0 <= ts < 2 ^ 64 -> str_encode_utf8 key = Return kb ->
  match view (peer s) !! kb with Some (t0, _) => t0 < ts | None => True end ->
  let after_put := put serve key ts data s in
  let after_get := get serve key (snd after_put) in
  fst after_put = Return (lit "OK")
  /\ fst after_get = Return (Some (ts, data)).
Proof.
  intros Hc Hs Hts Hkey Hnew after_put after_get.
  destruct (put_newer serve view Hc (peer s) kb ts data Hts Hnew)
    as (st1 & Hput & Hview1).
  assert (Hp : after_put
               = (Return (lit "OK"),
                  {| peer := st1; awaiting := None;
                     sent := sent s ++ [[b "PUT"; kb; pack_be64 ts; data]] |})).
  { subst after_put. rewrite (put_run serve s key ts data kb Hs Hts Hkey).
    cbv zeta. rewrite Hput. reflexivity. }
  subst after_get. rewrite Hp. cbn [fst snd]. split; [reflexivity|].
  match goal with |- context [get serve key ?s1] =>
    assert (Hs1 : idle s1) by reflexivity;
    rewrite (get_run serve s1 key kb Hs1 Hkey)
  end.
  assert (Hlook : view st1 !! kb = Some (ts, data)).
  { rewrite Hview1. apply lookup_insert_eq. }
  destruct (get_found serve view Hc st1 kb ts data Hlook) as (st2 & Hget & _).
  cbv zeta. cbn [peer fst].
  rewrite Hget. cbn [snd]. rewrite get_reply_cons. cbv zeta.
  change (bytes_decode_utf8_ignore (b "OK")) with (lit "OK").
  change (str_eqb (lit "OK") (lit "MISS")) with false.
  change (str_eqb (lit "OK") (lit "OK")) with true. cbv match.
  rewrite struct_unpack_Q_length by apply pack_be64_length.
  rewrite be_value_pack_be64 by exact Hts. reflexivity.
Qed.

Lemma put_then_get_witness :
  fst (put reference (lit "greeting") (2 ^ 64 - 1) all_octets (connect ∅))
  = Return (lit "OK")
  /\ fst (get reference (lit "greeting")
            (snd (put reference (lit "greeting") (2 ^ 64 - 1) all_octets
                    (connect ∅))))
     = Return (Some (2 ^ 64 - 1, all_octets)).
Proof.
  apply (put_then_get reference (fun st => st) (connect ∅) (lit "greeting")
           (2 ^ 64 - 1) all_octets (b "greeting") reference_conforms);
    [reflexivity | lia | reflexivity | vm_compute; exact I].
Defined.

(** C4, as the claim has it, fails on a store that already holds a newer
    record for the key: the scenario of the spec's own section 8.  The put
    of ("greeting", 500, "old") after ("greeting", 1000, "hello") is
    answered STALE, and the get that follows returns the record of
    timestamp 1000, not the timestamp and payload that were put. *)
Lemma stale_put_then_get :
  let s := connect ({[ b "greeting" := (1000, b "hello") ]} : records) in
  let after_put := put reference (lit "greeting") 500 (b "old") s in
  let after_get := get reference (lit "greeting") (snd after_put) in
  conforms reference (fun st => st)
  /\ fst after_put = Return (lit "STALE")
  /\ fst after_get = Return (Some (1000, b "hello"))
  /\ fst after_get <> Return (Some (500, b "old")).
Proof.
  cbv zeta. split; [exact reference_conforms|].
  split; [vm_compute; reflexivity|].
  split; [vm_compute; reflexivity|].
  vm_compute. discriminate.
Qed.

(** C5. A reply to [get] whose first frame decodes to OK and that has not
    exactly three frames makes [get] raise the error "malformed OK reply":
    not the result None of a miss, not a failure of the timestamp decoding
    or of the indexing, and not the error an ERR reply raises. *)
Theorem get_malformed_OK {Server : Type}
    (serve : Server -> list bytes -> Server * list bytes)
    (s : socket) (key : str) (kb rep0 : bytes) (rest : list bytes) :
  idle s -> str_encode_utf8 key = Return kb ->
  snd (serve (peer s) [b "GET"; kb]) = rep0 :: rest ->
  bytes_decode_utf8_ignore rep0 = lit "OK" ->
  length (rep0 :: rest) <> 3%nat ->
  let outcome := fst (get serve key s) in
  outcome = Raise (RuntimeError (lit "malformed OK reply"))
  /\ outcome <> Return None
  /\ outcome <> Raise struct_error
  /\ forall msg, outcome <> Raise (RuntimeError (lit "GET ERR: " ++ msg)).
Proof.
  intros Hs Hkey Hrep Hcode Hlen outcome.
  assert (Hout : outcome = Raise (RuntimeError (lit "malformed OK reply"))).
  { subst outcome. rewrite (get_run serve s key kb Hs Hkey). cbn [fst].
    rewrite Hrep, get_reply_cons. cbv zeta. tag_is Hcode.
    destruct rest as [|r1 [|r2 [|r3 rest]]]; try reflexivity.
    exfalso. apply Hlen. reflexivity. }
  rewrite Hout. split; [reflexivity|].
  split; [discriminate|]. split; [discriminate|].
  intros msg. messages_differ.
Qed.

Lemma get_malformed_OK_witness :
  fst (get (canned [b "OK"; pack_be64 1000]) (lit "greeting") (connect tt))
  = Raise (RuntimeError (lit "malformed OK reply")).
Proof.
  apply (get_malformed_OK (canned [b "OK"; pack_be64 1000]) (connect tt)
           (lit "greeting") (b "greeting") (b "OK") [pack_be64 1000]);
    [reflexivity | reflexivity | reflexivity | reflexivity
    | cbn [length]; lia].
Defined.

(** C6, as the claim has it, fails: the octets of the second frame are not
    always carried.  An ERR reply whose message frame holds the two octets
    0xFF 0xFE, which are not UTF-8, makes [get] and [put] raise the very
    error that the tag frame alone gives: its message is empty. *)
Lemma err_message_octets_are_dropped :
  let with_message := [b "ERR"; [xff; xfe]] in
  let tag_alone := [b "ERR"] in
  fst (get (canned with_message) (lit "greeting") (connect tt))
  = Raise (RuntimeError (lit "GET ERR: " ++ lit ""))
  /\ fst (get (canned with_message) (lit "greeting") (connect tt))
     = fst (get (canned tag_alone) (lit "greeting") (connect tt))
  /\ fst (put (canned with_message) (lit "greeting") 1000 (b "hello")
            (connect tt))
     = Raise (RuntimeError (lit "PUT ERR: " ++ lit ""))
  /\ fst (put (canned with_message) (lit "greeting") 1000 (b "hello")
            (connect tt))
     = fst (put (canned tag_alone) (lit "greeting") 1000 (b "hello")
              (connect tt)).
Proof.
  cbv zeta. repeat split; vm_compute; reflexivity.
Qed.

(** C6, as it holds.  An ERR reply of the tag frame alone makes [put] and
    [get] raise the server's error with an empty message; no decoding
    fails.  When a second frame is there, the message is that frame
    decoded as UTF-8 with the octets that do not form a sequence left out:
    the message is a text whose UTF-8 is a subsequence of the frame, and a
    frame that holds the UTF-8 of a text is carried as that very text. *)
Theorem err_reply_message {Server : Type}
    (serve : Server -> list bytes -> Server * list bytes)
    (s : socket) (key : str) (ts : Z) (data kb : bytes) :
  idle s -> 0 <= ts < 2 ^ 64 -> str_encode_utf8 key = Return kb ->
  let put_rep := snd (serve (peer s) [b "PUT"; kb; pack_be64 ts; data]) in
  let get_rep := snd (serve (peer s) [b "GET"; kb]) in
  (forall rep0, bytes_decode_utf8_ignore rep0 = lit "ERR" ->
     (put_rep = [rep0] ->
      fst (put serve key ts data s)
      = Raise (RuntimeError (lit "PUT ERR: " ++ lit "")))
     /\ (get_rep = [rep0] ->
         fst (get serve key s)
         = Raise (RuntimeError (lit "GET ERR: " ++ lit ""))))
  /\ (forall rep0 m more, bytes_decode_utf8_ignore rep0 = lit "ERR" ->
        (put_rep = rep0 :: m :: more ->
         fst (put serve key ts data s)
         = Raise (RuntimeError (lit "PUT ERR: " ++ bytes_decode_utf8_ignore m)))
        /\ (get_rep = rep0 :: m :: more ->
            fst (get serve key s)
            = Raise (RuntimeError
                       (lit "GET ERR: " ++ bytes_decode_utf8_ignore m)))
        /\ (exists enc,
              str_encode_utf8 (bytes_decode_utf8_ignore m) = Return enc
              /\ sublist enc m)
        /\ (forall text, str_encode_utf8 text = Return m ->
              bytes_decode_utf8_ignore m = text)).
Proof.
  intros Hs Hts Hkey put_rep get_rep.
  rewrite (put_run serve s key ts data kb Hs Hts Hkey).
  rewrite (get_run serve s key kb Hs Hkey). cbn [fst]. fold put_rep get_rep.
  split.
  - intros rep0 Hcode. split; intros ->.
    + rewrite put_reply_cons. cbv zeta. tag_is Hcode. reflexivity.
    + rewrite get_reply_cons. cbv zeta. tag_is Hcode. reflexivity.
  - intros rep0 m more Hcode. split; [|split; [|split]].
    + intros ->. rewrite put_reply_cons. cbv zeta. tag_is Hcode. reflexivity.
    + intros ->. rewrite get_reply_cons. cbv zeta. tag_is Hcode. reflexivity.
    + apply (decode_reencodes_upto (length m)). lia.
    + intros text. apply decode_encode.
Qed.

Lemma err_reply_message_witness :
  fst (get (canned [b "ERR"]) (lit "greeting") (connect tt))
  = Raise (RuntimeError (lit "GET ERR: " ++ lit "")).
Proof.
  apply (proj2 (proj1 (err_reply_message (canned [b "ERR"]) (connect tt)
                         (lit "greeting") 1000 (b "hello") (b "greeting")
                         (connect_idle tt) ltac:(lia) eq_refl)
                  (b "ERR") eq_refl));
    reflexivity.
Defined.

(** C7, as the claim has it, fails: the frame of the octet 0xFF followed
    by "OK" is not UTF-8, yet it decodes to the tag OK, with no marker in
    place of the octet, and [put] takes the reply for an accepted write. *)
Lemma invalid_tag_frame_decodes_to_OK :
  let fr := xff :: b "OK" in
  (forall text, str_encode_utf8 text <> Return fr)
  /\ bytes_decode_utf8_ignore fr = lit "OK"
  /\ ~ In 0xFFFD (bytes_decode_utf8_ignore fr)
  /\ fst (put (canned [fr]) (lit "greeting") 1000 (b "hello") (connect tt))
     = Return (lit "OK").
Proof.
  cbv zeta. split; [|split; [|split]].
  - intros text H. pose proof (decode_encode text _ H) as D.
    vm_compute in D. subst text. vm_compute in H. discriminate H.
  - reflexivity.
  - vm_compute. intros [H|[H|[]]]; discriminate H.
  - reflexivity.
Qed.

(** C7, as it holds.  The first frame of every reply is decoded as UTF-8
    with the octets that do not form a sequence left out: nothing stands
    in for them and nothing fails.  The decoded tag is a text whose UTF-8
    is a subsequence of the frame; a frame that is UTF-8 decodes to its
    text; and an octet that cannot start a sequence is passed over, so
    that a tag frame with such an octet in front of OK, STALE or MISS is
    read as that tag. *)
Theorem tag_decoding_drops_invalid_octets (fr : bytes) :
  (exists kb, str_encode_utf8 (bytes_decode_utf8_ignore fr) = Return kb
              /\ sublist kb fr)
  /\ (forall text, str_encode_utf8 text = Return fr ->
        bytes_decode_utf8_ignore fr = text)
  /\ (forall x rest, invalid_start x ->
        bytes_decode_utf8_ignore (x :: fr) = bytes_decode_utf8_ignore fr
        /\ (bytes_decode_utf8_ignore fr = lit "OK"
            \/ bytes_decode_utf8_ignore fr = lit "STALE" ->
            put_reply ((x :: fr) :: rest)
            = Return (bytes_decode_utf8_ignore fr))
        /\ (bytes_decode_utf8_ignore fr = lit "MISS" ->
            get_reply ((x :: fr) :: rest) = Return None)).
Proof.
  split; [|split].
  - apply (decode_reencodes_upto (length fr)). lia.
  - intros text. apply decode_encode.
  - intros x rest Hx. pose proof (decode_invalid_start x fr Hx) as D.
    split; [exact D|]. split.
    + intros Hcode. rewrite put_reply_cons, D. cbv zeta.
      destruct Hcode as [Hcode|Hcode]; tag_is Hcode; reflexivity.
    + intros Hcode. rewrite get_reply_cons, D. cbv zeta.
      tag_is Hcode. reflexivity.
Qed.

Lemma tag_decoding_drops_invalid_octets_witness :
  put_reply [xff :: b "STALE"] = Return (bytes_decode_utf8_ignore (b "STALE")).
Proof.
  apply (proj1 (proj2 (proj2 (proj2 (tag_decoding_drops_invalid_octets
                                       (b "STALE")))
                         xff [] ltac:(right; vm_compute; discriminate)))).
  right. reflexivity.
Defined.

(** C8. A reply of zero frames makes [put] and [get] raise the error
    "empty reply", and no reply that has a frame raises it: neither an
    unrecognized tag nor a malformed frame set nor an ERR of the server is
    reported that way.  The failures are told apart by their messages;
    the values "OK" and "STALE", and None and a found record, differ from
    each other and from every failure.  And the outcome of a call tells
    what the reply was: for a reply that has a frame, [put] returns "OK"
    exactly on the tag OK and "STALE" exactly on STALE, raises the
    "PUT ERR: ..." error exactly on ERR and the "Unexpected reply: ..."
    error exactly on any other tag; [get] returns None exactly on MISS and
    a record exactly on a well-formed OK, raises "malformed OK reply"
    exactly on an OK of another frame count, the "GET ERR: ..." error
    exactly on ERR and "Unexpected reply: ..." exactly on any other tag.
    So a caller can tell success, a stale write, a miss, a remote failure
    and a protocol failure from each other. *)
Theorem empty_reply_is_its_own_error {Server : Type}
    (serve : Server -> list bytes -> Server * list bytes)
    (s : socket) (key : str) (ts : Z) (data kb : bytes) :
  idle s -> 0 <= ts < 2 ^ 64 -> str_encode_utf8 key = Return kb ->
  let put_rep := snd (serve (peer s) [b "PUT"; kb; pack_be64 ts; data]) in
  let get_rep := snd (serve (peer s) [b "GET"; kb]) in
  let transport := RuntimeError (lit "empty reply") in
  (fst (put serve key ts data s) = Raise transport <-> put_rep = [])
  /\ (fst (get serve key s) = Raise transport <-> get_rep = [])
  /\ (forall msg rep,
        let remote_put := RuntimeError (lit "PUT ERR: " ++ msg) in
        let remote_get := RuntimeError (lit "GET ERR: " ++ msg) in
        let unexpected :=
          RuntimeError (lit "Unexpected reply: " ++ list_repr rep) in
        let malformed := RuntimeError (lit "malformed OK reply") in
        transport <> remote_put /\ transport <> remote_get
        /\ transport <> unexpected /\ transport <> malformed
        /\ remote_put <> unexpected /\ remote_get <> unexpected
        /\ remote_get <> malformed /\ unexpected <> malformed)
  /\ (@Return str (lit "OK") <> Return (lit "STALE")
      /\ (forall found : Z * bytes,
            @Return (option (Z * bytes)) None <> Return (Some found))
      /\ (forall (v : str) (e : exn), Return v <> Raise e)
      /\ (forall (v : option (Z * bytes)) (e : exn), Return v <> Raise e))
  /\ (forall rep0 rest, put_rep = rep0 :: rest ->
        let code := bytes_decode_utf8_ignore rep0 in
        let out := fst (put serve key ts data s) in
        (out = Return (lit "OK") <-> code = lit "OK")
        /\ (out = Return (lit "STALE") <-> code = lit "STALE")
        /\ ((exists msg, out = Raise (RuntimeError (lit "PUT ERR: " ++ msg)))
            <-> code = lit "ERR")
        /\ ((exists shown,
               out = Raise (RuntimeError (lit "Unexpected reply: " ++ shown)))
            <-> code <> lit "OK" /\ code <> lit "STALE"
                /\ code <> lit "ERR"))
  /\ (forall rep0 rest, get_rep = rep0 :: rest ->
        let code := bytes_decode_utf8_ignore rep0 in
        let out := fst (get serve key s) in
        (out = Return None <-> code = lit "MISS")
        /\ ((exists found, out = Return (Some found))
            <-> code = lit "OK"
                /\ exists tsb payload,
                     rest = [tsb; payload] /\ length tsb = 8%nat)
        /\ (out = Raise (RuntimeError (lit "malformed OK reply"))
            <-> code = lit "OK" /\ length rest <> 2%nat)
        /\ (out = Raise struct_error
            <-> code = lit "OK"
                /\ exists tsb payload,
                     rest = [tsb; payload] /\ length tsb <> 8%nat)
        /\ ((exists msg, out = Raise (RuntimeError (lit "GET ERR: " ++ msg)))
            <-> code = lit "ERR")
        /\ ((exists shown,
               out = Raise (RuntimeError (lit "Unexpected reply: " ++ shown)))
            <-> code <> lit "MISS" /\ code <> lit "OK"
                /\ code <> lit "ERR")).
Proof.
  intros Hs Hts Hkey put_rep get_rep transport.
  rewrite (put_run serve s key ts data kb Hs Hts Hkey).
  rewrite (get_run serve s key kb Hs Hkey). cbn [fst]. fold put_rep get_rep.
  split; [|split; [|split; [|split; [|split]]]].
  - split; [|intros ->; reflexivity].
    destruct put_rep as [|rep0 rest]; [reflexivity|].
    rewrite put_reply_cons. cbv zeta. intros H. exfalso. revert H.
    destruct (_ || _); [discriminate|].
    destruct (str_eqb _ _); messages_differ.
  - split; [|intros ->; reflexivity].
    destruct get_rep as [|rep0 rest]; [reflexivity|].
    rewrite get_reply_cons. cbv zeta. intros H. exfalso. revert H.
    destruct (str_eqb _ (lit "MISS")); [discriminate|].
    destruct (str_eqb _ (lit "OK")).
    + destruct rest as [|r1 [|r2 [|r3 rest]]]; try messages_differ.
      unfold struct_unpack_Q. destruct (_ =? _)%nat; discriminate.
    + destruct (str_eqb _ _); messages_differ.
  - intros msg rep. cbv zeta. unfold transport.
    repeat split; intros E; apply (f_equal (@Raise unit)) in E; revert E;
      messages_differ.
  - split; [vm_compute; discriminate|]. repeat split; discriminate.
  - intros rep0 rest ->. apply put_reply_classes.
  - intros rep0 rest ->. apply get_reply_classes.
Qed.

Lemma empty_reply_is_its_own_error_witness :
  fst (put (canned []) (lit "greeting") 1000 (b "hello") (connect tt))
  = Raise (RuntimeError (lit "empty reply")).
Proof.
  apply (empty_reply_is_its_own_error (canned []) (connect tt)
           (lit "greeting") 1000 (b "hello") (b "greeting"));
    [reflexivity | lia | reflexivity | reflexivity].
Defined.

(** C9. The tags that stand alone are accepted with any number of frames
    after them: a reply whose first frame decodes to MISS makes [get]
    return None, and one whose first frame decodes to OK or STALE makes
    [put] return that tag, whatever frames follow. *)
Theorem extra_frames_are_not_checked {Server : Type}
    (serve : Server -> list bytes -> Server * list bytes)
    (s : socket) (key : str) (ts : Z) (data kb : bytes) :
  idle s -> 0 <= ts < 2 ^ 64 -> str_encode_utf8 key = Return kb ->
  (forall rep0 extra,
     snd (serve (peer s) [b "GET"; kb]) = rep0 :: extra ->
     bytes_decode_utf8_ignore rep0 = lit "MISS" ->
     fst (get serve key s) = Return None)
  /\ (forall rep0 extra,
        snd (serve (peer s) [b "PUT"; kb; pack_be64 ts; data])
        = rep0 :: extra ->
        bytes_decode_utf8_ignore rep0 = lit "OK"
        \/ bytes_decode_utf8_ignore rep0 = lit "STALE" ->
        fst (put serve key ts data s)
        = Return (bytes_decode_utf8_ignore rep0)).
Proof.
  intros Hs Hts Hkey. split.
  - intros rep0 extra Hrep Hcode.
    rewrite (get_run serve s key kb Hs Hkey). cbn [fst].
    rewrite Hrep, get_reply_cons. cbv zeta. tag_is Hcode. reflexivity.
  - intros rep0 extra Hrep Hcode.
    rewrite (put_run serve s key ts data kb Hs Hts Hkey). cbn [fst].
    rewrite Hrep, put_reply_cons. cbv zeta.
    destruct Hcode as [Hcode|Hcode]; tag_is Hcode; reflexivity.
Qed.

Lemma extra_frames_are_not_checked_witness :
  fst (get (canned [b "MISS"; b "one"; b "two"]) (lit "greeting") (connect tt))
  = Return None.
Proof.
  apply (proj1 (extra_frames_are_not_checked
                  (canned [b "MISS"; b "one"; b "two"]) (connect tt)
                  (lit "greeting") 1000 (b "hello") (b "greeting")
                  (connect_idle tt) ltac:(lia) eq_refl)
           (b "MISS") [b "one"; b "two"]);
    reflexivity.
Defined.

(** C10. [put] is defined for timestamps in [0, 2^64) only.  Outside that
    range packing the timestamp fails, and [put] raises before it touches
    the socket: nothing is sent and the session is as it was.  Inside the
    range the packing succeeds, unpacking the eight octets it makes gives
    the timestamp back, and [put] goes on: it does not raise
    [struct.error], and with a key that encodes and an idle session it
    sends the request with those eight octets as its third frame.  So
    [put] raises [struct.error] exactly when the timestamp is out of
    range. *)
Theorem put_timestamp_range {Server : Type}
    (serve : Server -> list bytes -> Server * list bytes)
    (s : socket) (key : str) (ts : Z) (data : bytes) :
  (~ 0 <= ts < 2 ^ 64 ->
   struct_pack_Q ts = Raise struct_error
   /\ put serve key ts data s = (Raise struct_error, s))
  /\ (0 <= ts < 2 ^ 64 ->
      exists tb, struct_pack_Q ts = Return tb
                 /\ length tb = 8%nat
                 /\ struct_unpack_Q tb = Return ts
                 /\ fst (put serve key ts data s) <> Raise struct_error
                 /\ (forall kb,
                       idle s -> str_encode_utf8 key = Return kb ->
                       sent (snd (put serve key ts data s))
                       = sent s ++ [[b "PUT"; kb; tb; data]]))
  /\ (fst (put serve key ts data s) = Raise struct_error
      <-> ~ 0 <= ts < 2 ^ 64).
Proof.
  assert (Hin : 0 <= ts < 2 ^ 64 ->
                fst (put serve key ts data s) <> Raise struct_error).
  { intros Hts. rewrite put_cases, (struct_pack_Q_in_range ts Hts).
    destruct (str_encode_utf8 key) as [kb|e] eqn:Ekey.
    - destruct (awaiting s); [discriminate|]. cbn [fst]. intros E.
      destruct (put_reply_raises _ _ E) as (msg & Hm & _). discriminate Hm.
    - rewrite (str_encode_utf8_raises key e Ekey). discriminate. }
  assert (Hout : ~ 0 <= ts < 2 ^ 64 ->
                 put serve key ts data s = (Raise struct_error, s)).
  { intros Hts. rewrite put_cases, (struct_pack_Q_out_of_range _ Hts).
    reflexivity. }
  split; [|split].
  - intros Hts. split; [apply struct_pack_Q_out_of_range; exact Hts|].
    apply Hout. exact Hts.
  - intros Hts. exists (pack_be64 ts).
    split; [apply struct_pack_Q_in_range; exact Hts|].
    split; [apply pack_be64_length|].
    split; [rewrite struct_unpack_Q_length by apply pack_be64_length;
            rewrite be_value_pack_be64 by exact Hts; reflexivity|].
    split; [apply Hin; exact Hts|].
    intros kb Hs Hkey. rewrite (put_run serve s key ts data kb Hs Hts Hkey).
    reflexivity.
  - split.
    + intros E Hts. exact (Hin Hts E).
    + intros Hts. rewrite (Hout Hts). reflexivity.
Qed.

Lemma put_timestamp_range_witness :
  put reference (lit "greeting") (2 ^ 64) (b "hello") (connect ∅)
  = (Raise struct_error, connect ∅)
  /\ exists tb, struct_pack_Q 1000 = Return tb
                /\ length tb = 8%nat
                /\ struct_unpack_Q tb = Return 1000
                /\ fst (put reference (lit "greeting") 1000 (b "hello")
                          (connect ∅))
                   <> Raise struct_error
                /\ (forall kb,
                      idle (connect (∅ : records)) ->
                      str_encode_utf8 (lit "greeting") = Return kb ->
                      sent (snd (put reference (lit "greeting") 1000
                                   (b "hello") (connect ∅)))
                      = [] ++ [[b "PUT"; kb; tb; b "hello"]]).
Proof.
  split.
  - apply (proj1 (put_timestamp_range reference (connect ∅) (lit "greeting")
                    (2 ^ 64) (b "hello"))).
    lia.
  - apply (proj1 (proj2 (put_timestamp_range reference (connect ∅)
                           (lit "greeting") 1000 (b "hello")))).
    lia.
Defined.

(** * Further properties of the client *)

(** ** What the calls return and raise *)

(** X1. An OK reply to [get] that has its three frames but whose second
    frame is not eight octets long is not reported as a malformed reply:
    unpacking the timestamp fails and [get] raises [struct.error]. *)
Theorem get_bad_timestamp_frame {Server : Type}
    (serve : Server -> list bytes -> Server * list bytes)
    (s : socket) (key : str) (kb tag tsb data : bytes) :
  idle s -> str_encode_utf8 key = Return kb ->
  snd (serve (peer s) [b "GET"; kb]) = [tag; tsb; data] ->
  bytes_decode_utf8_ignore tag = lit "OK" ->
  length tsb <> 8%nat ->
  fst (get serve key s) = Raise struct_error
  /\ fst (get serve key s) <> Raise (RuntimeError (lit "malformed OK reply")).
Proof.
  intros Hs Hkey Hrep Hcode Hlen.
  rewrite (get_run serve s key kb Hs Hkey). cbn [fst].
  rewrite Hrep, get_reply_cons. cbv zeta. tag_is Hcode.
  unfold struct_unpack_Q.
  destruct (Nat.eqb_spec (length tsb) 8); [contradiction|].
  split; [reflexivity | discriminate].
Qed.

Lemma get_bad_timestamp_frame_witness :
  fst (get (canned [b "OK"; b "1000"; b "hello"]) (lit "greeting")
         (connect tt))
  = Raise struct_error.
Proof.
  apply (get_bad_timestamp_frame (canned [b "OK"; b "1000"; b "hello"])
           (connect tt) (lit "greeting") (b "greeting") (b "OK") (b "1000")
           (b "hello"));
    [reflexivity | reflexivity | reflexivity | reflexivity
    | cbn [length b list_byte_of_string]; vm_compute; lia].
Defined.

(** X2. [put] returns nothing but the two tags.  When it returns, the
    value is "OK" or "STALE", it is the first frame of the reply decoded,
    the session was idle, the timestamp was in [0, 2^64), the key was
    encoded, and exactly one request, the PUT, went out. *)
Theorem put_returns_a_tag {Server : Type}
    (serve : Server -> list bytes -> Server * list bytes)
    (s : socket) (key : str) (ts : Z) (data : bytes) (v : str) :
  fst (put serve key ts data s) = Return v ->
  (v = lit "OK" \/ v = lit "STALE")
  /\ idle s /\ 0 <= ts < 2 ^ 64
  /\ exists kb rep0 rest,
       str_encode_utf8 key = Return kb
       /\ snd (serve (peer s) [b "PUT"; kb; pack_be64 ts; data]) = rep0 :: rest
       /\ bytes_decode_utf8_ignore rep0 = v
       /\ sent (snd (put serve key ts data s))
          = sent s ++ [[b "PUT"; kb; pack_be64 ts; data]].
Proof.
  rewrite put_cases.
  destruct (struct_pack_Q ts) as [tb|] eqn:Ets; [|discriminate].
  destruct (struct_pack_Q_inv ts tb Ets) as [Hts ->].
  destruct (str_encode_utf8 key) as [kb|] eqn:Ekey; [|discriminate].
  destruct (awaiting s) eqn:Es; [discriminate|]. cbn [fst snd sent].
  intros H. destruct (put_reply_returns _ v H) as [Hv (rep0 & rest & Hrep & Hc)].
  split; [exact Hv|]. split; [exact Es|]. split; [exact Hts|].
  exists kb, rep0, rest. repeat split; assumption || reflexivity.
Qed.

Lemma put_returns_a_tag_witness :
  (lit "STALE" = lit "OK" \/ lit "STALE" = lit "STALE")
  /\ idle (connect ({[ b "greeting" := (1000, b "hello") ]} : records))
  /\ 0 <= 500 < 2 ^ 64.
Proof.
  assert (H : fst (put reference (lit "greeting") 500 (b "old")
                     (connect ({[ b "greeting" := (1000, b "hello") ]}
                               : records)))
              = Return (lit "STALE")) by (vm_compute; reflexivity).
  destruct (put_returns_a_tag reference _ _ _ _ _ H) as (Hv & Hs & Hts & _).
  exact (conj Hv (conj Hs Hts)).
Defined.

(** X3. What [get] returns says what the reply was.  When it returns a
    record, the reply had exactly three frames, the first decoding to OK,
    the second being the eight big-endian octets of the returned
    timestamp, which lies in [0, 2^64), and the third the returned
    payload; when it returns None the first frame decoded to MISS. *)
Theorem get_returns_the_reply {Server : Type}
    (serve : Server -> list bytes -> Server * list bytes)
    (s : socket) (key : str) (r : option (Z * bytes)) :
  fst (get serve key s) = Return r ->
  idle s
  /\ exists kb tag rest,
       str_encode_utf8 key = Return kb
       /\ snd (serve (peer s) [b "GET"; kb]) = tag :: rest
       /\ match r with
          | None => bytes_decode_utf8_ignore tag = lit "MISS"
          | Some (ts, data) =>
            bytes_decode_utf8_ignore tag = lit "OK"
            /\ rest = [pack_be64 ts; data] /\ 0 <= ts < 2 ^ 64
          end.
Proof.
  rewrite get_cases.
  destruct (str_encode_utf8 key) as [kb|] eqn:Ekey; [|discriminate].
  destruct (awaiting s) eqn:Es; [discriminate|]. cbn [fst].
  intros H. destruct (get_reply_returns _ r H) as (tag & rest & Hrep & Hr).
  split; [exact Es|]. exists kb, tag, rest. repeat split; assumption.
Qed.

Lemma get_returns_the_reply_witness :
  idle (connect ({[ b "greeting" := (1000, b "hello") ]} : records)).
Proof.
  apply (get_returns_the_reply reference
           (connect ({[ b "greeting" := (1000, b "hello") ]} : records))
           (lit "greeting") (Some (1000, b "hello"))).
  vm_compute. reflexivity.
Defined.

(** X4. A key that holds a surrogate code point cannot be encoded: [get]
    raises [UnicodeEncodeError], and so does [put] when the timestamp is
    in range, both before anything is sent; the session is as it was. *)
Theorem unencodable_key {Server : Type}
    (serve : Server -> list bytes -> Server * list bytes)
    (s : socket) (key : str) (ts : Z) (data : bytes) :
  ~ is_text key ->
  get serve key s = (Raise UnicodeEncodeError, s)
  /\ (0 <= ts < 2 ^ 64 ->
      put serve key ts data s = (Raise UnicodeEncodeError, s)).
Proof.
  intros Hkey. pose proof (str_encode_utf8_not_text key Hkey) as E. split.
  - rewrite get_cases, E. reflexivity.
  - intros Hts. rewrite put_cases, (struct_pack_Q_in_range ts Hts), E.
    reflexivity.
Qed.

Lemma unencodable_key_witness :
  get reference [0xD800] (connect ∅) = (Raise UnicodeEncodeError, connect ∅).
Proof.
  apply (unencodable_key reference (connect ∅) [0xD800] 1000 (b "hello")).
  unfold is_text. intros H. inversion H as [|c l [_ Hc] Hl]. lia.
Defined.

(** ** The session over many calls *)

Section Sessions.
Context {Server : Type}.
Variable serve : Server -> list bytes -> Server * list bytes.

Lemma reachable_idle (s : socket) : reachable serve s -> idle s.
Proof.
  induction 1 as [p|s key ts data _ IH|s key _ IH].
  - reflexivity.
  - apply put_idle. exact IH.
  - apply get_idle. exact IH.
Qed.

Lemma put_sends_at_most_one (s : socket) (key : str) (ts : Z) (data : bytes) :
  sent (snd (put serve key ts data s)) = sent s
  \/ exists req, is_request req
       /\ sent (snd (put serve key ts data s)) = sent s ++ [req].
Proof.
  rewrite put_cases.
  destruct (struct_pack_Q ts) as [tb|] eqn:Ets; [|left; reflexivity].
  destruct (struct_pack_Q_inv ts tb Ets) as [Hts ->].
  destruct (str_encode_utf8 key) as [kb|] eqn:Ekey; [|left; reflexivity].
  destruct (awaiting s); [left; reflexivity|].
  right. eexists. split; [|reflexivity].
  left. exists key, kb, ts, data. auto.
Qed.

Lemma get_sends_at_most_one (s : socket) (key : str) :
  sent (snd (get serve key s)) = sent s
  \/ exists req, is_request req
       /\ sent (snd (get serve key s)) = sent s ++ [req].
Proof.
  rewrite get_cases.
  destruct (str_encode_utf8 key) as [kb|] eqn:Ekey; [|left; reflexivity].
  destruct (awaiting s); [left; reflexivity|].
  right. eexists. split; [|reflexivity].
  right. exists key, kb. auto.
Qed.

End Sessions.

(** X5. The client by itself never leaves its socket out of turn.  While
    every request is answered, in every session that starts with
    [KVZClient.__init__] and goes on with calls of [put] and [get],
    whatever they returned or raised ([struct.error], [UnicodeEncodeError],
    a [RuntimeError] about the reply), no reply is awaited between two
    calls and the next [put] or [get] does not raise the [ZMQError] of a
    send out of turn: every raise of the client comes before the send or
    after the receive.  A socket that is left awaiting a reply, as a
    receive that failed leaves it, stays so: every later [put] and [get]
    with arguments that encode raises [ZMQError], sends nothing and leaves
    the session as it was. *)
Theorem session_stays_in_turn {Server : Type}
    (serve : Server -> list bytes -> Server * list bytes) (s : socket) :
  (reachable serve s ->
   idle s
   /\ (forall key ts data, fst (put serve key ts data s) <> Raise ZMQError)
   /\ (forall key, fst (get serve key s) <> Raise ZMQError))
  /\ (forall pending, awaiting s = Some pending ->
        (forall key ts data,
           is_text key -> 0 <= ts < 2 ^ 64 ->
           put serve key ts data s = (Raise ZMQError, s))
        /\ (forall key, is_text key ->
              get serve key s = (Raise ZMQError, s))).
Proof.
  split.
  - intros Hr. pose proof (reachable_idle serve s Hr) as Hs.
    split; [exact Hs|]. split.
    + intros key ts data. rewrite put_cases.
      destruct (struct_pack_Q ts) as [tb|] eqn:Ets.
      * destruct (str_encode_utf8 key) as [kb|e] eqn:Ekey.
        -- rewrite Hs. cbn [fst]. intros E.
           destruct (put_reply_raises _ _ E) as (msg & Hm & _).
           discriminate Hm.
        -- rewrite (str_encode_utf8_raises key e Ekey). discriminate.
      * revert Ets. unfold struct_pack_Q. destruct (_ && _); [discriminate|].
        intros E. injection E as <-. discriminate.
    + intros key. rewrite get_cases.
      destruct (str_encode_utf8 key) as [kb|e] eqn:Ekey.
      * rewrite Hs. cbn [fst]. intros E.
        destruct (get_reply_raises _ _ E) as [Hm|(msg & Hm & _)];
          discriminate Hm.
      * rewrite (str_encode_utf8_raises key e Ekey). discriminate.
  - intros pending Hp. split.
    + intros key ts data Hkey Hts.
      destruct (proj2 (str_encode_utf8_defined key) Hkey) as [kb Ekey].
      rewrite put_cases, (struct_pack_Q_in_range ts Hts), Ekey, Hp.
      reflexivity.
    + intros key Hkey.
      destruct (proj2 (str_encode_utf8_defined key) Hkey) as [kb Ekey].
      rewrite get_cases, Ekey, Hp. reflexivity.
Qed.

Lemma session_stays_in_turn_witness :
  idle (snd (get reference (lit "greeting")
               (snd (put reference (lit "greeting") (2 ^ 64) (b "hello")
                       (connect ∅)))))
  /\ get reference [] {| peer := ∅; awaiting := Some [b "OK"]; sent := [] |}
     = (Raise ZMQError,
        {| peer := ∅; awaiting := Some [b "OK"]; sent := [] |}).
Proof.
  split.
  - apply (proj1 (session_stays_in_turn reference _)).
    apply reachable_get, reachable_put, reachable_connect.
  - apply (proj2 (proj2 (session_stays_in_turn reference
                           {| peer := ∅; awaiting := Some [b "OK"];
                              sent := [] |})
                    [b "OK"] eq_refl)).
    constructor.
Defined.

(** X6. The client puts nothing on the wire but requests of the protocol.
    In every session that starts with [KVZClient.__init__] and goes on
    with calls of [put] and [get], every message sent is a PUT of four
    frames (tag, key in UTF-8, eight octets of a timestamp in [0, 2^64),
    payload) or a GET of two frames (tag, key in UTF-8), and a call sends
    one such request or none: there is no retry. *)
Theorem only_requests_are_sent {Server : Type}
    (serve : Server -> list bytes -> Server * list bytes) (s : socket) :
  reachable serve s ->
  Forall is_request (sent s)
  /\ (forall key ts data,
        sent (snd (put serve key ts data s)) = sent s
        \/ exists req, is_request req
             /\ sent (snd (put serve key ts data s)) = sent s ++ [req])
  /\ (forall key,
        sent (snd (get serve key s)) = sent s
        \/ exists req, is_request req
             /\ sent (snd (get serve key s)) = sent s ++ [req]).
Proof.
  intros Hr. split; [|split].
  - induction Hr as [p|s key ts data _ IH|s key _ IH].
    + constructor.
    + destruct (put_sends_at_most_one serve s key ts data)
        as [->|(req & Hreq & ->)]; [exact IH|].
      apply Forall_app. split; [exact IH|].
      apply List.Forall_cons; [exact Hreq | apply List.Forall_nil].
    + destruct (get_sends_at_most_one serve s key)
        as [->|(req & Hreq & ->)]; [exact IH|].
      apply Forall_app. split; [exact IH|].
      apply List.Forall_cons; [exact Hreq | apply List.Forall_nil].
  - intros key ts data. apply put_sends_at_most_one.
  - intros key. apply get_sends_at_most_one.
Qed.

Lemma only_requests_are_sent_witness :
  Forall is_request
    (sent (snd (get reference (lit "greeting")
                  (snd (put reference (lit "greeting") 1000 (b "hello")
                          (connect ∅)))))).
Proof.
  apply (only_requests_are_sent reference).
  apply reachable_get, reachable_put, reachable_connect.
Defined.

(** ** The messages of the errors *)

Lemma hexdigit_printable (d : Z) : 0 <= d < 16 -> printable (hexdigit d).
Proof. unfold printable, hexdigit. intros H. decide_Z. Qed.

Lemma bytes_repr_quote_cases (fr : bytes) :
  bytes_repr_quote fr = 34 \/ bytes_repr_quote fr = 39.
Proof. unfold bytes_repr_quote. destruct (_ && _); auto. Qed.

Lemma bytes_repr_char_printable (quote : Z) (x : byte) :
  quote = 34 \/ quote = 39 -> Forall printable (bytes_repr_char quote x).
Proof.
  intros Hq. pose proof (ord_range x) as Hx. unfold bytes_repr_char.
  assert (Hhi : 0 <= Z.shiftr (Z.land (ord x) 0xF0) 4 < 16).
  { rewrite Z.shiftr_land. change (Z.shiftr 0xF0 4) with (Z.ones 4).
    rewrite Z.land_ones by lia. apply Z.mod_pos_bound. lia. }
  assert (Hlo : 0 <= Z.land (ord x) 0xF < 16).
  { change 0xF with (Z.ones 4). rewrite Z.land_ones by lia.
    apply Z.mod_pos_bound. lia. }
  pose proof (hexdigit_printable _ Hhi). pose proof (hexdigit_printable _ Hlo).
  unfold printable in *.
  destruct ((ord x =? quote) || (ord x =? 92)) eqn:E1.
  { repeat (apply List.Forall_cons || apply List.Forall_nil); lia. }
  apply orb_false_iff in E1. destruct E1 as [Eq E92].
  apply Z.eqb_neq in Eq. apply Z.eqb_neq in E92.
  decide_Z; cbn [orb];
    repeat (apply List.Forall_cons || apply List.Forall_nil); lia.
Qed.

Lemma bytes_repr_printable (fr : bytes) : Forall printable (bytes_repr fr).
Proof.
  unfold bytes_repr. cbv zeta.
  pose proof (bytes_repr_quote_cases fr) as Hq.
  assert (Hp : printable (bytes_repr_quote fr))
    by (unfold printable; destruct Hq as [-> | ->]; lia).
  apply Forall_app. split.
  { repeat (apply List.Forall_cons || apply List.Forall_nil);
      [unfold printable; lia | exact Hp]. }
  apply Forall_app. split.
  - apply Forall_concat. apply Forall_forall. intros l Hl.
    apply list_elem_of_In, in_map_iff in Hl. destruct Hl as (x & <- & _).
    apply bytes_repr_char_printable. exact Hq.
  - apply List.Forall_cons; [exact Hp | apply List.Forall_nil].
Qed.

Lemma join_printable (sep : str) (l : list str) :
  Forall printable sep -> Forall (Forall printable) l ->
  Forall printable (join sep l).
Proof.
  intros Hsep Hl. induction Hl as [|x l Hx Hl IH]; [constructor|].
  cbn [join]. destruct l as [|y l]; [exact Hx|].
  apply Forall_app. split; [exact Hx|].
  apply Forall_app. split; [exact Hsep | exact IH].
Qed.

Lemma lit_printable_check (t : str) :
  forallb (fun c => (32 <=? c) && (c <=? 126)) t = true -> Forall printable t.
Proof.
  intros H. apply Forall_forall. intros c Hc.
  apply list_elem_of_In in Hc.
  rewrite forallb_forall in H. specialize (H c Hc).
  unfold printable. lia.
Qed.

Lemma list_repr_printable (rep : list bytes) : Forall printable (list_repr rep).
Proof.
  unfold list_repr.
  apply Forall_app. split; [apply lit_printable_check; reflexivity|].
  apply Forall_app. split; [|apply lit_printable_check; reflexivity].
  apply join_printable; [apply lit_printable_check; reflexivity|].
  apply Forall_forall. intros l Hl.
  apply list_elem_of_In, in_map_iff in Hl. destruct Hl as (x & <- & _).
  apply bytes_repr_printable.
Qed.

Lemma printable_is_text (t : str) : Forall printable t -> is_text t.
Proof.
  unfold is_text. intros H. eapply Forall_impl; [exact H|].
  unfold printable. intros c Hc. cbv beta. lia.
Qed.

Lemma decode_is_text (fr : bytes) : is_text (bytes_decode_utf8_ignore fr).
Proof.
  apply str_encode_utf8_defined.
  destruct (decode_reencodes_upto (length fr) fr (le_n _)) as (kb & Hkb & _).
  exists kb. exact Hkb.
Qed.

Lemma is_text_app (x y : str) : is_text x -> is_text y -> is_text (x ++ y).
Proof. unfold is_text. intros Hx Hy. apply Forall_app. auto. Qed.

(** X7. The errors that [put] and [get] raise can always be shown.
    Whatever octets the frames of the reply hold, the message of a
    [RuntimeError] is a text (no surrogate code point, so it encodes to
    UTF-8), and the frames an "Unexpected reply" message shows are written
    in printable ASCII alone. *)
Theorem error_messages_are_text {Server : Type}
    (serve : Server -> list bytes -> Server * list bytes)
    (s : socket) (key : str) (ts : Z) (data : bytes) (msg : str) :
  fst (put serve key ts data s) = Raise (RuntimeError msg)
  \/ fst (get serve key s) = Raise (RuntimeError msg) ->
  is_text msg
  /\ forall rep,
       Forall printable (lit "Unexpected reply: " ++ list_repr rep).
Proof.
  intros H. split.
  - assert (Hprefix : forall p t, Forall printable p -> is_text t ->
                        is_text (p ++ t)).
    { intros p t Hp Ht. apply is_text_app;
        [apply printable_is_text; exact Hp | exact Ht]. }
    assert (Hlit : forall p, forallb (fun c => (32 <=? c) && (c <=? 126)) p
                             = true -> is_text p).
    { intros p Hp. apply printable_is_text, lit_printable_check. exact Hp. }
    destruct H as [H|H].
    + revert H. rewrite put_cases.
      destruct (struct_pack_Q ts) as [tb|] eqn:Ets.
      2:{ revert Ets. unfold struct_pack_Q. destruct (_ && _); [discriminate|].
          intros E. injection E as <-. discriminate. }
      destruct (str_encode_utf8 key) as [kb|e] eqn:Ekey.
      2:{ rewrite (str_encode_utf8_raises key e Ekey). discriminate. }
      destruct (awaiting s); [discriminate|]. cbn [fst]. intros E.
      destruct (put_reply_raises _ _ E) as (m & Hm & Hcases).
      assert (Em : m = msg) by congruence. subst m. clear E Hm.
      destruct Hcases as [->|[[fr ->]|[->| ->]]].
      * apply Hlit. reflexivity.
      * apply Hprefix; [apply lit_printable_check; reflexivity|].
        apply decode_is_text.
      * apply Hlit. reflexivity.
      * apply Hprefix; [apply lit_printable_check; reflexivity|].
        apply printable_is_text, list_repr_printable.
    + revert H. rewrite get_cases.
      destruct (str_encode_utf8 key) as [kb|e] eqn:Ekey.
      2:{ rewrite (str_encode_utf8_raises key e Ekey). discriminate. }
      destruct (awaiting s); [discriminate|]. cbn [fst]. intros E.
      destruct (get_reply_raises _ _ E) as [Hm|(m & Hm & Hcases)];
        [discriminate Hm|].
      assert (Em : m = msg) by congruence. subst m. clear E Hm.
      destruct Hcases as [->|[->|[[fr ->]|[->| ->]]]].
      * apply Hlit. reflexivity.
      * apply Hlit. reflexivity.
      * apply Hprefix; [apply lit_printable_check; reflexivity|].
        apply decode_is_text.
      * apply Hlit. reflexivity.
      * apply Hprefix; [apply lit_printable_check; reflexivity|].
        apply printable_is_text, list_repr_printable.
  - intros rep. apply Forall_app. split;
      [apply lit_printable_check; reflexivity | apply list_repr_printable].
Qed.

Lemma error_messages_are_text_witness :
  is_text (lit "Unexpected reply: " ++ list_repr [[xff; x00; x27]; [x22]]).
Proof.
  apply (error_messages_are_text (canned [[xff; x00; x27]; [x22]])
           (connect tt) (lit "greeting") 1000 (b "hello")).
  left. vm_compute. reflexivity.
Defined.

(** ** Requests and tags, frame for frame *)

(** X8. The request tells the arguments.  Two calls of [put] from the same
    idle session, with keys that are texts and timestamps in [0, 2^64),
    that leave the same messages sent were given the same key, the same
    timestamp and the same payload; two calls of [get] that leave the same
    messages sent were given the same key. *)
Theorem same_request_same_arguments {Server : Type}
    (serve : Server -> list bytes -> Server * list bytes)
    (s : socket) (k1 k2 : str) (t1 t2 : Z) (d1 d2 : bytes) :
  idle s -> is_text k1 -> is_text k2 ->
  0 <= t1 < 2 ^ 64 -> 0 <= t2 < 2 ^ 64 ->
  (sent (snd (put serve k1 t1 d1 s)) = sent (snd (put serve k2 t2 d2 s)) ->
   k1 = k2 /\ t1 = t2 /\ d1 = d2)
  /\ (sent (snd (get serve k1 s)) = sent (snd (get serve k2 s)) -> k1 = k2).
Proof.
  intros Hs Hk1 Hk2 Ht1 Ht2.
  destruct (proj2 (str_encode_utf8_defined k1) Hk1) as [kb1 E1].
  destruct (proj2 (str_encode_utf8_defined k2) Hk2) as [kb2 E2].
  rewrite (put_run serve s k1 t1 d1 kb1 Hs Ht1 E1).
  rewrite (put_run serve s k2 t2 d2 kb2 Hs Ht2 E2).
  rewrite (get_run serve s k1 kb1 Hs E1), (get_run serve s k2 kb2 Hs E2).
  cbn [snd sent].
  assert (Hkey : kb1 = kb2 -> k1 = k2).
  { intros Hkb. rewrite <- (decode_encode k1 kb1 E1).
    rewrite <- (decode_encode k2 kb2 E2), Hkb. reflexivity. }
  split; intros H; apply app_inv_head in H.
  - assert (Hkb : kb1 = kb2) by congruence.
    assert (Htb : pack_be64 t1 = pack_be64 t2) by congruence.
    assert (Hd : d1 = d2) by congruence.
    split; [apply Hkey; exact Hkb|]. split; [|exact Hd].
    rewrite <- (be_value_pack_be64 t1 Ht1), <- (be_value_pack_be64 t2 Ht2).
    rewrite Htb. reflexivity.
  - apply Hkey. congruence.
Qed.

Lemma same_request_same_arguments_witness :
  lit "greeting" = lit "greeting" /\ 1000 = 1000 /\ b "hello" = b "hello".
Proof.
  assert (Ht : is_text (lit "greeting")).
  { unfold is_text. change (lit "greeting") with (List.map Z.of_nat
      [103; 114; 101; 101; 116; 105; 110; 103]%nat). cbn [List.map].
    repeat (constructor; [lia|]). constructor. }
  apply (proj1 (same_request_same_arguments reference (connect ∅)
                  (lit "greeting") (lit "greeting") 1000 1000 (b "hello")
                  (b "hello") (connect_idle ∅) Ht Ht ltac:(lia) ltac:(lia))).
  reflexivity.
Defined.

(** X9. A tag frame that is well-formed UTF-8 is taken for a tag only when
    it is that tag octet for octet: [put] returns "OK" exactly when the
    frame is b"OK" and "STALE" exactly when it is b"STALE", and [get]
    returns None exactly when the frame is b"MISS".  The leniency of the
    decoding touches ill-formed frames alone. *)
Theorem well_formed_tag_is_exact {Server : Type}
    (serve : Server -> list bytes -> Server * list bytes)
    (s : socket) (key : str) (ts : Z) (data kb : bytes) :
  idle s -> 0 <= ts < 2 ^ 64 -> str_encode_utf8 key = Return kb ->
  (forall text rep0 rest,
     str_encode_utf8 text = Return rep0 ->
     snd (serve (peer s) [b "PUT"; kb; pack_be64 ts; data]) = rep0 :: rest ->
     (fst (put serve key ts data s) = Return (lit "OK") <-> rep0 = b "OK")
     /\ (fst (put serve key ts data s) = Return (lit "STALE")
         <-> rep0 = b "STALE"))
  /\ (forall text rep0 rest,
        str_encode_utf8 text = Return rep0 ->
        snd (serve (peer s) [b "GET"; kb]) = rep0 :: rest ->
        (fst (get serve key s) = Return None <-> rep0 = b "MISS")).
Proof.
  intros Hs Hts Hkey.
  rewrite (put_run serve s key ts data kb Hs Hts Hkey).
  rewrite (get_run serve s key kb Hs Hkey). cbn [fst].
  assert (Hexact : forall text rep0 (tag : string),
            str_encode_utf8 text = Return rep0 ->
            str_encode_utf8 (lit tag) = Return (b tag) ->
            (bytes_decode_utf8_ignore rep0 = lit tag <-> rep0 = b tag)).
  { intros text rep0 tag Htext Htag.
    rewrite (decode_encode text rep0 Htext). split.
    - intros ->. congruence.
    - intros ->. rewrite <- (decode_encode text _ Htext).
      apply decode_encode. exact Htag. }
  split.
  - intros text rep0 rest Htext ->. split.
    + rewrite <- (Hexact text rep0 "OK"%string Htext eq_refl). split.
      * intros H. destruct (put_reply_returns _ _ H)
          as (_ & r0 & r & Hr & Hc). congruence.
      * intros Hc. rewrite put_reply_cons. cbv zeta. tag_is Hc. reflexivity.
    + rewrite <- (Hexact text rep0 "STALE"%string Htext eq_refl). split.
      * intros H. destruct (put_reply_returns _ _ H)
          as (_ & r0 & r & Hr & Hc). congruence.
      * intros Hc. rewrite put_reply_cons. cbv zeta. tag_is Hc. reflexivity.
  - intros text rep0 rest Htext ->.
    rewrite <- (Hexact text rep0 "MISS"%string Htext eq_refl). split.
    + intros H. destruct (get_reply_returns _ _ H) as (r0 & r & Hr & Hc).
      congruence.
    + intros Hc. rewrite get_reply_cons. cbv zeta. tag_is Hc. reflexivity.
Qed.

Lemma well_formed_tag_is_exact_witness :
  fst (get (canned [b "MISS"]) (lit "greeting") (connect tt)) = Return None
  <-> b "MISS" = b "MISS".
Proof.
  apply (proj2 (well_formed_tag_is_exact (canned [b "MISS"]) (connect tt)
                  (lit "greeting") 1000 (b "hello") (b "greeting")
                  (connect_idle tt) ltac:(lia) eq_refl)
           (lit "MISS") (b "MISS") []);
    reflexivity.
Defined.

(** ** The demo *)

Section Demo.
Context {Server : Type}.
Variable serve : Server -> list bytes -> Server * list bytes.

Lemma get_after_put (p : Server) (key : str) (kb : bytes)
    (log : list (list bytes)) :
  str_encode_utf8 key = Return kb ->
  get serve key {| peer := p; awaiting := None; sent := log |}
  = (get_reply (snd (serve p [b "GET"; kb])),
     {| peer := fst (serve p [b "GET"; kb]); awaiting := None;
        sent := log ++ [[b "GET"; kb]] |}).
Proof.
  intros Hkey.
  rewrite (get_run serve {| peer := p; awaiting := None; sent := log |}
             key kb eq_refl Hkey).
  reflexivity.
Qed.

End Demo.

(** X10. What the demo prints and sends, against any peer.  When it ends
    without an exception it has made exactly two round trips and printed
    exactly two lines: "PUT: OK" or "PUT: STALE", then "MISS" or the line
    of a record whose timestamp lies in [0, 2^64).  When a call raises,
    either nothing was printed and at most the PUT was sent, or the PUT
    line alone was printed and both requests were sent. *)
Theorem main_prints {Server : Type}
    (serve : Server -> list bytes -> Server * list bytes)
    (ts : Z) (p : Server) (out : list str) (r : result unit) (s : socket) :
  main serve ts p = (out, r, s) ->
  (r = Return tt ->
   length (sent s) = 2%nat
   /\ exists tag line,
        out = [lit "PUT: " ++ tag; line]
        /\ (tag = lit "OK" \/ tag = lit "STALE")
        /\ (line = lit "MISS"
            \/ exists ts' data', 0 <= ts' < 2 ^ 64
                 /\ line = get_line ts' data'))
  /\ (forall e, r = Raise e ->
        (out = [] /\ (length (sent s) <= 1)%nat)
        \/ (exists tag, out = [lit "PUT: " ++ tag]
              /\ (tag = lit "OK" \/ tag = lit "STALE")
              /\ length (sent s) = 2%nat)).
Proof.
  unfold main. cbv zeta. rewrite put_cases.
  change (str_encode_utf8 (lit "greeting")) with (Return (b "greeting")).
  cbn [awaiting connect peer sent app].
  destruct (struct_pack_Q ts) as [tb|e0].
  2:{ intros E. injection E as <- <- <-.
      split; [discriminate|]. intros e _. left. split; [reflexivity|].
      cbn. lia. }
  destruct (put_reply _) as [tag|e1] eqn:Eput.
  2:{ intros E. injection E as <- <- <-.
      split; [discriminate|]. intros e _. left. split; [reflexivity|].
      cbn. lia. }
  destruct (put_reply_returns _ _ Eput) as [Htag _].
  rewrite (get_after_put serve _ (lit "greeting") (b "greeting") _ eq_refl).
  destruct (get_reply _) as [[[ts' data']|]|e2] eqn:Eget;
    intros E; injection E as <- <- <-.
  - split; [|discriminate]. intros _. split; [reflexivity|].
    exists tag. eexists. split; [reflexivity|]. split; [exact Htag|].
    right. exists ts', data'. split; [|reflexivity].
    destruct (get_reply_returns _ _ Eget) as (r0 & rest & _ & _ & _ & Hr).
    exact Hr.
  - split; [|discriminate]. intros _. split; [reflexivity|].
    exists tag. eexists. split; [reflexivity|]. split; [exact Htag|].
    left. reflexivity.
  - split; [discriminate|]. intros e _. right.
    exists tag. split; [reflexivity|]. split; [exact Htag | reflexivity].
Qed.

Lemma main_prints_witness :
  length (sent (snd (main reference 1000 ∅))) = 2%nat
  /\ exists tag line,
       fst (fst (main reference 1000 ∅)) = [lit "PUT: " ++ tag; line]
       /\ (tag = lit "OK" \/ tag = lit "STALE")
       /\ (line = lit "MISS"
           \/ exists ts' data', 0 <= ts' < 2 ^ 64
                /\ line = get_line ts' data').
Proof.
  assert (E : main reference 1000 ∅
              = (fst (fst (main reference 1000 ∅)),
                 snd (fst (main reference 1000 ∅)),
                 snd (main reference 1000 ∅)))
    by (destruct (main reference 1000 ∅) as [[? ?] ?]; reflexivity).
  apply (proj1 (main_prints reference 1000 ∅ _ _ _ E)).
  vm_compute. reflexivity.
Defined.
